(** * Upload effects of the route-optimization frontend

    A shallow embedding of [UploadEffects] (upload.effects.ts): the three
    NgRx effects [openCsvDialog$], [openDialog$] and [loadScenario$], the
    services they call (clock, store, dialog registry, message service) and
    the actions they dispatch.  The normalization service is not part of the
    embedded sources and is a parameter of the development. *)

From Stdlib Require Import List String ZArith Bool Arith Lia.
Import ListNotations.
Open Scope string_scope.
Open Scope Z_scope.

(** ** JavaScript values *)

(** Uploaded content is typed [any] in the source: it is a JSON value. *)
#[local] Set Warnings "-register-all".
Inductive Json : Type :=
| JNull
| JBool (b : bool)
| JNum (n : Z)
| JStr (s : string)
| JArr (items : list Json)
| JObj (fields : list (string * Json)).

Module JS.

(** A property read yields [None] for [undefined]. *)
Fixpoint lookup (k : string) (fields : list (string * Json)) : option Json :=
  match fields with
  | [] => None
  | (k', v) :: rest => if String.eqb k k' then Some v else lookup k rest
  end.

(** [v.k] on a value that is not an object is [undefined]. *)
Definition prop (k : string) (v : Json) : option Json :=
  match v with
  | JObj fields => lookup k fields
  | _ => None
  end.

(** [v?.k]: [undefined] when [v] is [null] or [undefined]. *)
Definition optChain (v : option Json) (k : string) : option Json :=
  match v with
  | None => None
  | Some JNull => None
  | Some o => prop k o
  end.

(** Truthiness of a value in a condition. *)
Definition truthy (v : option Json) : bool :=
  match v with
  | None => false
  | Some JNull => false
  | Some (JBool b) => b
  | Some (JNum n) => negb (n =? 0)
  | Some (JStr s) => negb (String.eqb s "")
  | Some (JArr _) => true
  | Some (JObj _) => true
  end.

(** Truthiness of an optional boolean field such as [ignore?: boolean]. *)
Definition flag (b : option bool) : bool :=
  match b with
  | Some true => true
  | _ => false
  end.

(** Truthiness of an object reference that may be [undefined]. *)
Definition defined {A : Type} (x : option A) : bool :=
  match x with
  | Some _ => true
  | None => false
  end.

(** [xs.push(x)] *)
Definition push {A : Type} (xs : list A) (x : A) : list A := (xs ++ [x])%list.

(** [xs.forEach(f)] over a state threaded through the callback. *)
Definition forEach {A S : Type} (xs : list A) (f : A -> S -> S) (s : S) : S :=
  fold_left (fun acc x => f x acc) xs s.

End JS.

(** ** Domain entities, as far as the effects read them *)

Record Shipment : Type := {
  shipmentId : Z;
  shipmentIgnore : option bool;
  shipmentBody : Json
}.

Record Vehicle : Type := {
  vehicleId : Z;
  vehicleIgnore : option bool;
  vehicleBody : Json
}.

Record VehicleOperator : Type := {
  vehicleOperatorId : Z;
  vehicleOperatorBody : Json
}.

(** The value returned by [NormalizationService.normalizeScenario]; the
    fields are the ones the effects destructure. *)
Record Normalized : Type := {
  firstSolutionRoutes : Json;
  injectedModelConstraint : Json;
  injectedSolution : Json;
  label : Json;
  searchMode : Json;
  shipments : list Shipment;
  shipmentModel : Json;
  solvingMode : Json;
  timeout : Json;
  traffic : Json;
  vehicles : list Vehicle;
  vehicleOperators : list VehicleOperator;
  visitRequests : list Json;
  allowLargeDeadlineDespiteInterruptionRisk : Json;
  interpretInjectedSolutionsUsingLabels : Json;
  populateTransitionPolylines : Json;
  useGeodesicDistances : Json;
  geodesicMetersPerSecond : Json;
  normalizedScenario : Json
}.

(** ** Actions *)

Module LoadScenario.
Record props : Type := {
  shipments : list Shipment;
  vehicles : list Vehicle;
  vehicleOperators : list VehicleOperator;
  visitRequests : list Json;
  selectedShipments : list Z;
  selectedVehicles : list Z;
  selectedVehicleOperators : list Z;
  changeTime : Z
}.
End LoadScenario.

Module RequestSettings.
Record props : Type := {
  firstSolutionRoutes : Json;
  injectedModelConstraint : Json;
  injectedSolution : Json;
  label : Json;
  searchMode : Json;
  solvingMode : Json;
  timeout : Json;
  traffic : Json;
  allowLargeDeadlineDespiteInterruptionRisk : Json;
  interpretInjectedSolutionsUsingLabels : Json;
  populateTransitionPolylines : Json;
  useGeodesicDistances : Json;
  geodesicMetersPerSecond : Json
}.
End RequestSettings.

Module ElapsedSolution.
Record t : Type := {
  scenario : Json;
  solution : Json;
  elapsedTime : Z;
  requestTime : Z;
  timeOfResponse : Z
}.
End ElapsedSolution.

Inductive Action : Type :=
| openCsvDialog
| closeCsvDialog
| openDialog
| closeDialog
| openUploadDialog
| setTimezone (newTimezone : Json)
| uploadScenarioSuccess (scenario : Json)
| applySolution (elapsedSolution : ElapsedSolution.t)
                (requestedShipmentIds requestedVehicleIds : list Z)
| loadScenario (p : LoadScenario.props)
| setRequestSettings (p : RequestSettings.props)
| setShipmentModel (shipmentModel : Json)
| otherAction (type : string).

(** The creator an action was made by, as [ofType] compares it. *)
Inductive ActionType : Type :=
| TOpenCsvDialog | TCloseCsvDialog | TOpenDialog | TCloseDialog
| TOpenUploadDialog | TSetTimezone | TUploadScenarioSuccess | TApplySolution
| TLoadScenario | TSetRequestSettings | TSetShipmentModel
| TOther (type : string).

Definition actionType (a : Action) : ActionType :=
  match a with
  | openCsvDialog => TOpenCsvDialog
  | closeCsvDialog => TCloseCsvDialog
  | openDialog => TOpenDialog
  | closeDialog => TCloseDialog
  | openUploadDialog => TOpenUploadDialog
  | setTimezone _ => TSetTimezone
  | uploadScenarioSuccess _ => TUploadScenarioSuccess
  | applySolution _ _ _ => TApplySolution
  | loadScenario _ => TLoadScenario
  | setRequestSettings _ => TSetRequestSettings
  | setShipmentModel _ => TSetShipmentModel
  | otherAction type => TOther type
  end.

Definition actionTypeEqb (x y : ActionType) : bool :=
  match x, y with
  | TOpenCsvDialog, TOpenCsvDialog
  | TCloseCsvDialog, TCloseCsvDialog
  | TOpenDialog, TOpenDialog
  | TCloseDialog, TCloseDialog
  | TOpenUploadDialog, TOpenUploadDialog
  | TSetTimezone, TSetTimezone
  | TUploadScenarioSuccess, TUploadScenarioSuccess
  | TApplySolution, TApplySolution
  | TLoadScenario, TLoadScenario
  | TSetRequestSettings, TSetRequestSettings
  | TSetShipmentModel, TSetShipmentModel => true
  | TOther s, TOther s' => String.eqb s s'
  | _, _ => false
  end.

(** [ofType(c1, ..., cn)] as a predicate on one action. *)
Definition ofType (creators : list ActionType) (a : Action) : bool :=
  existsb (actionTypeEqb (actionType a)) creators.

(** ** Modals and dialogs *)

(** The [Modal] enum: the two members the effects name, and the rest. *)
Inductive Modal : Type :=
| Upload
| CsvUpload
| OtherModal (name : string).

Definition modalEqb (x y : Modal) : bool :=
  match x, y with
  | Upload, Upload => true
  | CsvUpload, CsvUpload => true
  | OtherModal n, OtherModal n' => String.eqb n n'
  | _, _ => false
  end.

Inductive DialogComponent : Type :=
| CsvUploadDialogComponent
| UploadDialogComponent.

(** An open dialog in [MatDialog.openDialogs]; of the configuration only
    the id matters to the effects. *)
Record DialogRef : Type := {
  dialogId : Modal;
  dialogComponent : DialogComponent
}.

(** ** Dialog results *)

Record CsvDialogResult : Type := {
  csvScenario : Json;
  csvTimezone : Json
}.

(** [{ uploadType, content }]: the content has the shape its upload type
    announces; [UploadOther] stands for any further [UploadType] member,
    which the [switch] lets fall through. *)
Inductive UploadDialogResult : Type :=
| UploadScenario (content : Json)
| UploadScenarioSolutionPair (scenario solution : Json)
| UploadOther (uploadType : Z) (content : Json).

(** ** Messages *)

Record MessageConfig : Type := {
  duration : option Z;
  verticalPosition : string
}.

Inductive Severity : Type := Warning.

Record Message : Type := {
  severity : Severity;
  text : string;
  config : MessageConfig
}.

(** ** The world the effects run in *)

Record World : Type := {
  wClock : nat -> Z;            (* successive readings of [Date.now()] *)
  wTicks : nat;                 (* readings taken so far *)
  wMessages : list Message;     (* what [MessageService] has shown *)
  wModal : option Modal;        (* [fromUI.selectModal] on the store *)
  wDialogs : list DialogRef;    (* [MatDialog.openDialogs] *)
  wCsvInner : bool;             (* [exhaustMap] of [openCsvDialog$] is busy *)
  wUploadInner : bool           (* [exhaustMap] of [openDialog$] is busy *)
}.

Definition Eff (A : Type) : Type := World -> A * World.

Definition ret {A : Type} (x : A) : Eff A := fun w => (x, w).

Definition bind {A B : Type} (m : Eff A) (k : A -> Eff B) : Eff B :=
  fun w => let (x, w') := m w in k x w'.

Declare Scope eff_scope.
Delimit Scope eff_scope with eff.
Notation "x <- m ;; k" := (bind m (fun x => k))
  (at level 61, m at next level, right associativity) : eff_scope.
Notation "m ;; k" := (bind m (fun _ => k))
  (at level 61, right associativity) : eff_scope.
Open Scope eff_scope.

(** [Date.now()] *)
Definition dateNow : Eff Z :=
  fun w =>
    (wClock w (wTicks w),
     {| wClock := wClock w; wTicks := S (wTicks w); wMessages := wMessages w;
        wModal := wModal w; wDialogs := wDialogs w;
        wCsvInner := wCsvInner w; wUploadInner := wUploadInner w |}).

(** [messageService.warning(text, config)] *)
Definition warning (t : string) (c : MessageConfig) : Eff unit :=
  fun w =>
    (tt,
     {| wClock := wClock w; wTicks := wTicks w;
        wMessages := JS.push (wMessages w)
                       {| severity := Warning; text := t; config := c |};
        wModal := wModal w; wDialogs := wDialogs w;
        wCsvInner := wCsvInner w; wUploadInner := wUploadInner w |}).

(** [store.pipe(select(fromUI.selectModal), first())] *)
Definition selectModal : Eff (option Modal) := fun w => (wModal w, w).

(** [dialog.getDialogById(id)] *)
Definition getDialogById (id : Modal) : Eff (option DialogRef) :=
  fun w => (find (fun d => modalEqb (dialogId d) id) (wDialogs w), w).

(** [dialog.open(component, { id, ... })].  The registry is extended
    whether or not the id is taken: nothing but the effect's own guard
    keeps an id from being opened twice. *)
Definition dialogOpen (c : DialogComponent) (id : Modal) : Eff unit :=
  fun w =>
    (tt,
     {| wClock := wClock w; wTicks := wTicks w; wMessages := wMessages w;
        wModal := wModal w;
        wDialogs := JS.push (wDialogs w) {| dialogId := id; dialogComponent := c |};
        wCsvInner := wCsvInner w; wUploadInner := wUploadInner w |}).

Fixpoint removeDialog (id : Modal) (ds : list DialogRef) : list DialogRef :=
  match ds with
  | [] => []
  | d :: rest => if modalEqb (dialogId d) id then rest else d :: removeDialog id rest
  end.

(** The dialog with this id leaves the registry when it closes. *)
Definition dialogClosed (id : Modal) : Eff unit :=
  fun w =>
    (tt,
     {| wClock := wClock w; wTicks := wTicks w; wMessages := wMessages w;
        wModal := wModal w; wDialogs := removeDialog id (wDialogs w);
        wCsvInner := wCsvInner w; wUploadInner := wUploadInner w |}).

Definition setCsvInner (b : bool) : Eff unit :=
  fun w =>
    (tt,
     {| wClock := wClock w; wTicks := wTicks w; wMessages := wMessages w;
        wModal := wModal w; wDialogs := wDialogs w;
        wCsvInner := b; wUploadInner := wUploadInner w |}).

Definition setUploadInner (b : bool) : Eff unit :=
  fun w =>
    (tt,
     {| wClock := wClock w; wTicks := wTicks w; wMessages := wMessages w;
        wModal := wModal w; wDialogs := wDialogs w;
        wCsvInner := wCsvInner w; wUploadInner := b |}).

Definition setModal (m : option Modal) : Eff unit :=
  fun w =>
    (tt,
     {| wClock := wClock w; wTicks := wTicks w; wMessages := wMessages w;
        wModal := m; wDialogs := wDialogs w;
        wCsvInner := wCsvInner w; wUploadInner := wUploadInner w |}).

(** ** The effects *)

Section UploadEffects.

(** Modelled from the spec: [NormalizationService.normalizeScenario]
    (the normalization service is not among the embedded sources), a
    deterministic transform of the uploaded scenario and the change time
    into the application's typed representation: a function of the two. *)
Variable normalizeScenario : Json -> Z -> Normalized.

Definition warningConfig : MessageConfig :=
  {| duration := None; verticalPosition := "bottom" |}.

Definition injectedRoutesWithoutSolution : string :=
  "The uploaded scenario contains injected routes, but no solution. These injected routes will be ignored by the application.".

Definition injectedRoutesWithSolution : string :=
  "The uploaded scenario contains both injected routes and a solution. Only the solution will be considered for further injected iterations.".

(** [normalizedScenario.injectedSolutionConstraint?.routes] as a condition *)
Definition hasInjectedRoutes (normalized : Json) : bool :=
  JS.truthy (JS.optChain (JS.prop "injectedSolutionConstraint" normalized) "routes").

(** *** openCsvDialog$ *)

(** The [filter] after the store read. *)
Definition csvDialogGuard (modal : option Modal) (existing : option DialogRef) : bool :=
  match modal with
  | Some m => modalEqb m CsvUpload
  | None => false
  end && negb (JS.defined existing).

(** From [ofType] to the [exhaustMap]: what one action on [actions$] does. *)
Definition openCsvDialogTrigger (a : Action) : Eff unit :=
  if ofType [TOpenCsvDialog] a then
    modal <- selectModal ;;
    existing <- getDialogById CsvUpload ;;
    if csvDialogGuard modal existing then
      fun w =>
        if wCsvInner w then ret tt w
        else (dialogOpen CsvUploadDialogComponent CsvUpload ;; setCsvInner true) w
    else ret tt
  else ret tt.

(** The [mergeMap] on the value of [afterClosed()]. *)
Definition openCsvDialogResult (dialogResult : option CsvDialogResult) : list Action :=
  match dialogResult with
  | None => []
  | Some r =>
      let actions := [closeCsvDialog] in
      let actions := JS.push actions (setTimezone (csvTimezone r)) in
      let actions := JS.push actions (uploadScenarioSuccess (csvScenario r)) in
      actions
  end.

(** *** openDialog$ *)

Definition uploadDialogGuard (modal : option Modal) (existing : option DialogRef) : bool :=
  match modal with
  | Some m => modalEqb m Upload
  | None => false
  end && negb (JS.defined existing).

Definition openDialogTrigger (a : Action) : Eff unit :=
  if ofType [TOpenDialog; TOpenUploadDialog] a then
    modal <- selectModal ;;
    existing <- getDialogById Upload ;;
    if uploadDialogGuard modal existing then
      fun w =>
        if wUploadInner w then ret tt w
        else (dialogOpen UploadDialogComponent Upload ;; setUploadInner true) w
    else ret tt
  else ret tt.

Definition openDialogResult (dialogResult : option UploadDialogResult) : Eff (list Action) :=
  let actions := [closeDialog] in
  match dialogResult with
  | None => ret actions
  | Some (UploadScenario content) =>
      now <- dateNow ;;
      let normalized := normalizedScenario (normalizeScenario content now) in
      (if hasInjectedRoutes normalized
       then warning injectedRoutesWithoutSolution warningConfig
       else ret tt) ;;
      let actions := JS.push actions (uploadScenarioSuccess normalized) in
      ret actions
  | Some (UploadScenarioSolutionPair scenario solution) =>
      requestTime <- dateNow ;;
      let result := normalizeScenario scenario requestTime in
      let normalized := normalizedScenario result in
      let requestedShipmentIds :=
        map shipmentId
            (filter (fun s => negb (JS.flag (shipmentIgnore s))) (shipments result)) in
      let requestedVehicleIds :=
        map vehicleId
            (filter (fun v => negb (JS.flag (vehicleIgnore v))) (vehicles result)) in
      (if hasInjectedRoutes normalized
       then warning injectedRoutesWithSolution warningConfig
       else ret tt) ;;
      let actions := JS.push actions (uploadScenarioSuccess normalized) in
      let actions :=
        JS.push actions
          (applySolution
             {| ElapsedSolution.scenario := normalized;
                ElapsedSolution.solution := solution;
                ElapsedSolution.elapsedTime := 0;
                ElapsedSolution.requestTime := requestTime;
                ElapsedSolution.timeOfResponse := requestTime |}
             requestedShipmentIds
             requestedVehicleIds) in
      ret actions
  | Some (UploadOther _ _) => ret actions
  end.

(** *** loadScenario$ *)

(** The [concatMap] callback, on the scenario of one
    [uploadScenarioSuccess]. *)
Definition loadScenarioResult (scenario : Json) : Eff (list Action) :=
  changeTime <- dateNow ;;
  let result := normalizeScenario scenario changeTime in
  let selectedShipments :=
    JS.forEach (shipments result)
      (fun shipment selected =>
         if negb (JS.flag (shipmentIgnore shipment))
         then JS.push selected (shipmentId shipment)
         else selected) [] in
  let selectedVehicles :=
    JS.forEach (vehicles result)
      (fun vehicle selected =>
         if negb (JS.flag (vehicleIgnore vehicle))
         then JS.push selected (vehicleId vehicle)
         else selected) [] in
  let selectedVehicleOperators :=
    JS.forEach (vehicleOperators result)
      (fun vehicleOperator selected =>
         JS.push selected (vehicleOperatorId vehicleOperator)) [] in
  ret [ loadScenario
          {| LoadScenario.shipments := shipments result;
             LoadScenario.vehicles := vehicles result;
             LoadScenario.vehicleOperators := vehicleOperators result;
             LoadScenario.visitRequests := visitRequests result;
             LoadScenario.selectedShipments := selectedShipments;
             LoadScenario.selectedVehicles := selectedVehicles;
             LoadScenario.selectedVehicleOperators := selectedVehicleOperators;
             LoadScenario.changeTime := changeTime |};
        setRequestSettings
          {| RequestSettings.firstSolutionRoutes := firstSolutionRoutes result;
             RequestSettings.injectedModelConstraint := injectedModelConstraint result;
             RequestSettings.injectedSolution := injectedSolution result;
             RequestSettings.label := label result;
             RequestSettings.searchMode := searchMode result;
             RequestSettings.solvingMode := solvingMode result;
             RequestSettings.timeout := timeout result;
             RequestSettings.traffic := traffic result;
             RequestSettings.allowLargeDeadlineDespiteInterruptionRisk :=
               allowLargeDeadlineDespiteInterruptionRisk result;
             RequestSettings.interpretInjectedSolutionsUsingLabels :=
               interpretInjectedSolutionsUsingLabels result;
             RequestSettings.populateTransitionPolylines :=
               populateTransitionPolylines result;
             RequestSettings.useGeodesicDistances := useGeodesicDistances result;
             RequestSettings.geodesicMetersPerSecond := geodesicMetersPerSecond result |};
        setShipmentModel (shipmentModel result) ].

(** [ofType(uploadScenarioSuccess)] and the [concatMap], on one action. *)
Definition loadScenarioOn (a : Action) : Eff (list Action) :=
  match a with
  | uploadScenarioSuccess scenario => loadScenarioResult scenario
  | _ => ret []
  end.

(** The effect over a run of actions: the outputs are concatenated in
    the order of the inputs. *)
Fixpoint loadScenarioEffect (actions : list Action) : Eff (list Action) :=
  match actions with
  | [] => ret []
  | a :: rest =>
      out <- loadScenarioOn a ;;
      outs <- loadScenarioEffect rest ;;
      ret (out ++ outs)%list
  end.

(** One upload from the closing of the dialog on: what [openDialog$]
    dispatches, and what [loadScenario$] dispatches in answer. *)
Definition uploadPipeline (dialogResult : option UploadDialogResult)
  : Eff (list Action * list Action) :=
  uploaded <- openDialogResult dialogResult ;;
  loaded <- loadScenarioEffect uploaded ;;
  ret (uploaded, loaded).

(** *** The effects as one reactive system *)

Inductive Event : Type :=
| Dispatched (a : Action)
| ModalSelected (modal : option Modal)
| CsvDialogClosed (dialogResult : option CsvDialogResult)
| UploadDialogClosed (dialogResult : option UploadDialogResult).

(** What the three effects dispatch in answer to one event. *)
Definition step (e : Event) : Eff (list Action) :=
  match e with
  | Dispatched a =>
      openCsvDialogTrigger a ;;
      openDialogTrigger a ;;
      loadScenarioOn a
  | ModalSelected modal => setModal modal ;; ret []
  | CsvDialogClosed dialogResult =>
      fun w =>
        if wCsvInner w
        then (dialogClosed CsvUpload ;; setCsvInner false ;;
              ret (openCsvDialogResult dialogResult)) w
        else ret [] w
  | UploadDialogClosed dialogResult =>
      fun w =>
        if wUploadInner w
        then (dialogClosed Upload ;; setUploadInner false ;;
              openDialogResult dialogResult) w
        else ret [] w
  end.

Fixpoint run (events : list Event) (w : World) : list Action * World :=
  match events with
  | [] => ([], w)
  | e :: rest =>
      let (out, w') := step e w in
      let (outs, w'') := run rest w' in
      ((out ++ outs)%list, w'')
  end.

End UploadEffects.

(** The application at start: nothing shown, no modal selected, no dialog
    open. *)
Definition initialWorld (clock : nat -> Z) : World :=
  {| wClock := clock; wTicks := 0; wMessages := []; wModal := None;
     wDialogs := []; wCsvInner := false; wUploadInner := false |}.

Definition countId (id : Modal) (ds : list DialogRef) : nat :=
  List.length (filter (fun d => modalEqb (dialogId d) id) ds).

(** How many dialogs with this id are open. *)
Definition openCount (id : Modal) (w : World) : nat := countId id (wDialogs w).

(** Each dialog effect is busy exactly while its one dialog is open. *)
Definition dialogsInStep (w : World) : Prop :=
  openCount Upload w = (if wUploadInner w then 1 else 0)%nat /\
  openCount CsvUpload w = (if wCsvInner w then 1 else 0)%nat.

(** What an upload normalizes to, when its upload type is one the
    [switch] handles. *)
Definition uploadedNormalized (normalizeScenario : Json -> Z -> Normalized)
    (dialogResult : UploadDialogResult) (now : Z) : option Json :=
  match dialogResult with
  | UploadScenario content => Some (normalizedScenario (normalizeScenario content now))
  | UploadScenarioSolutionPair scenario _ =>
      Some (normalizedScenario (normalizeScenario scenario now))
  | UploadOther _ _ => None
  end.

(** The warning shown for an upload with injected routes. *)
Definition injectedRoutesWarning (dialogResult : UploadDialogResult) : string :=
  match dialogResult with
  | UploadScenarioSolutionPair _ _ => injectedRoutesWithSolution
  | _ => injectedRoutesWithoutSolution
  end.

(** The success actions of an upload, written without a look at the
    injected routes. *)
Definition successActions (normalizeScenario : Json -> Z -> Normalized)
    (dialogResult : UploadDialogResult) (now : Z) : list Action :=
  match dialogResult with
  | UploadScenario content =>
      [uploadScenarioSuccess (normalizedScenario (normalizeScenario content now))]
  | UploadScenarioSolutionPair scenario solution =>
      let result := normalizeScenario scenario now in
      [uploadScenarioSuccess (normalizedScenario result);
       applySolution
         {| ElapsedSolution.scenario := normalizedScenario result;
            ElapsedSolution.solution := solution;
            ElapsedSolution.elapsedTime := 0;
            ElapsedSolution.requestTime := now;
            ElapsedSolution.timeOfResponse := now |}
         (map shipmentId
              (filter (fun s => negb (JS.flag (shipmentIgnore s))) (shipments result)))
         (map vehicleId
              (filter (fun v => negb (JS.flag (vehicleIgnore v))) (vehicles result)))]
  | UploadOther _ _ => []
  end.



(** The action types [loadScenario$] answers one action with. *)
Definition loadScenarioAnswer (a : Action) : list ActionType :=
  match a with
  | uploadScenarioSuccess _ => [TLoadScenario; TSetRequestSettings; TSetShipmentModel]
  | _ => []
  end.

(** ** Sample data *)

Module Sample.

Definition shipment (id : Z) (ignore : option bool) : Shipment :=
  {| shipmentId := id; shipmentIgnore := ignore; shipmentBody := JNull |}.

Definition vehicle (id : Z) (ignore : option bool) : Vehicle :=
  {| vehicleId := id; vehicleIgnore := ignore; vehicleBody := JNull |}.

Definition operator (id : Z) : VehicleOperator :=
  {| vehicleOperatorId := id; vehicleOperatorBody := JNull |}.

(** A stand-in for the normalization service: fixed entities, the
    scenario handed back as the normalized one, the time as the label. *)
Definition normalize (scenario : Json) (changeTime : Z) : Normalized :=
  {| firstSolutionRoutes := JNull;
     injectedModelConstraint := JNull;
     injectedSolution := JNull;
     label := JNum changeTime;
     searchMode := JNum 1;
     shipments := [shipment 1 None; shipment 2 (Some true); shipment 3 (Some false)];
     shipmentModel := JObj [];
     solvingMode := JNum 0;
     timeout := JStr "30s";
     traffic := JBool false;
     vehicles := [vehicle 1 (Some true); vehicle 2 None];
     vehicleOperators := [operator 7; operator 8];
     visitRequests := [];
     allowLargeDeadlineDespiteInterruptionRisk := JBool false;
     interpretInjectedSolutionsUsingLabels := JBool false;
     populateTransitionPolylines := JBool true;
     useGeodesicDistances := JBool false;
     geodesicMetersPerSecond := JNull;
     normalizedScenario := scenario |}.

Definition plainScenario : Json := JObj [("model", JObj [])].

(** A scenario with injected routes; an empty array is truthy too. *)
Definition injectedScenario : Json :=
  JObj [("model", JObj []);
        ("injectedSolutionConstraint", JObj [("routes", JArr [])])].

Definition solution : Json := JObj [("routes", JArr [JObj []])].

Definition clock (n : nat) : Z := 1000 + Z.of_nat n.


(** A world in the middle of a session, with the same clock readings
    ahead as the initial one. *)
Definition busyWorld : World :=
  {| wClock := fun n => match n with
                        | S (S (S (S (S m)))) => clock m
                        | _ => 0
                        end;
     wTicks := 5;
     wMessages := [{| severity := Warning; text := "earlier"; config := warningConfig |}];
     wModal := Some Upload;
     wDialogs := [{| dialogId := Upload; dialogComponent := UploadDialogComponent |}];
     wCsvInner := false; wUploadInner := true |}.

End Sample.

(** ** The two dialog effects, side by side *)

(** The modal an effect waits for; its dialog is opened under that id. *)
Definition effectModal (c : DialogComponent) : Modal :=
  match c with
  | CsvUploadDialogComponent => CsvUpload
  | UploadDialogComponent => Upload
  end.

(** The actions the [ofType] of the effect lets through. *)
Definition effectTriggers (c : DialogComponent) : list Action :=
  match c with
  | CsvUploadDialogComponent => [openCsvDialog]
  | UploadDialogComponent => [openDialog; openUploadDialog]
  end.

Definition effectBusy (c : DialogComponent) (w : World) : bool :=
  match c with
  | CsvUploadDialogComponent => wCsvInner w
  | UploadDialogComponent => wUploadInner w
  end.

(** The world once the effect has opened its dialog. *)
Definition withDialogOpen (c : DialogComponent) (w : World) : World :=
  {| wClock := wClock w; wTicks := wTicks w; wMessages := wMessages w;
     wModal := wModal w;
     wDialogs := JS.push (wDialogs w) {| dialogId := effectModal c; dialogComponent := c |};
     wCsvInner := match c with
                  | CsvUploadDialogComponent => true
                  | UploadDialogComponent => wCsvInner w
                  end;
     wUploadInner := match c with
                     | CsvUploadDialogComponent => wUploadInner w
                     | UploadDialogComponent => true
                     end |}.

(** The sequences of action types one step can dispatch. *)
Definition stepOutputShapes : list (list ActionType) :=
  [ [];
    [TLoadScenario; TSetRequestSettings; TSetShipmentModel];
    [TCloseCsvDialog; TSetTimezone; TUploadScenarioSuccess];
    [TCloseDialog];
    [TCloseDialog; TUploadScenarioSuccess];
    [TCloseDialog; TUploadScenarioSuccess; TApplySolution] ].

(** The action types that make one of the effects act. *)
Definition reactedTo : list ActionType :=
  [TOpenCsvDialog; TOpenDialog; TOpenUploadDialog; TUploadScenarioSuccess].

(** A dialog that belongs to neither effect. *)
Definition isOtherDialog (d : DialogRef) : bool :=
  negb (modalEqb (dialogId d) Upload) && negb (modalEqb (dialogId d) CsvUpload).

(** One of the two warnings about injected routes, as the effect shows
    them. *)
Definition isInjectedRoutesWarning (m : Message) : Prop :=
  severity m = Warning /\ config m = warningConfig /\
  (text m = injectedRoutesWithoutSolution \/ text m = injectedRoutesWithSolution).

(** ** The main navigation component *)

Module BaseMainNavComponent.

(** The [Page] enum, whose members the component does not look at. *)
Inductive Page : Type := PageNamed (name : string).

Record SimpleChange : Type := {
  previousValue : Json;
  currentValue : Json;
  firstChange : bool
}.

(** [SimpleChanges]: the changed inputs under their names. *)
Definition SimpleChanges : Type := list (string * SimpleChange).

(** [changes.name] *)
Fixpoint change (name : string) (changes : SimpleChanges) : option SimpleChange :=
  match changes with
  | [] => None
  | (k, v) :: rest => if String.eqb name k then Some v else change name rest
  end.

(** The inputs and the label; an input is [undefined] until it is bound.
    The four event emitters are neither read nor written by the methods. *)
Record t : Type := {
  allowExperimentalFeatures : option bool;
  disabled : option bool;
  hasSolution : option bool;
  isSolutionStale : option bool;
  isSolutionIllegal : option bool;
  selectedShipmentCount : option Z;
  selectedVehicleCount : option Z;
  selectedVehicleOperatorCount : option Z;
  solving : option bool;
  page : option Page;
  label : option string
}.

(** [this.label = value] *)
Definition setLabel (value : string) (c : t) : t :=
  {| allowExperimentalFeatures := allowExperimentalFeatures c;
     disabled := disabled c;
     hasSolution := hasSolution c;
     isSolutionStale := isSolutionStale c;
     isSolutionIllegal := isSolutionIllegal c;
     selectedShipmentCount := selectedShipmentCount c;
     selectedVehicleCount := selectedVehicleCount c;
     selectedVehicleOperatorCount := selectedVehicleOperatorCount c;
     solving := solving c;
     page := page c;
     label := Some value |}.

(** [a || b] gives [a] when it is truthy and [b] otherwise. *)
Definition hasSolutionWarning (c : t) : option bool :=
  if JS.flag (isSolutionStale c) then isSolutionStale c else isSolutionIllegal c.

Definition ngOnChanges (changes : SimpleChanges) (c : t) : t :=
  if JS.defined (change "hasSolution" changes) || JS.defined (change "solving" changes)
  then
    if JS.flag (solving c) then setLabel "Cancel" c
    else setLabel (if JS.flag (hasSolution c) then "Regenerate" else "Generate") c
  else c.

(** A new value bound to one of the inputs. *)
Inductive Binding : Type :=
| BindAllowExperimentalFeatures (v : bool)
| BindDisabled (v : bool)
| BindHasSolution (v : bool)
| BindIsSolutionStale (v : bool)
| BindIsSolutionIllegal (v : bool)
| BindSelectedShipmentCount (v : Z)
| BindSelectedVehicleCount (v : Z)
| BindSelectedVehicleOperatorCount (v : Z)
| BindSolving (v : bool)
| BindPage (v : Page).

Definition inputName (b : Binding) : string :=
  match b with
  | BindAllowExperimentalFeatures _ => "allowExperimentalFeatures"
  | BindDisabled _ => "disabled"
  | BindHasSolution _ => "hasSolution"
  | BindIsSolutionStale _ => "isSolutionStale"
  | BindIsSolutionIllegal _ => "isSolutionIllegal"
  | BindSelectedShipmentCount _ => "selectedShipmentCount"
  | BindSelectedVehicleCount _ => "selectedVehicleCount"
  | BindSelectedVehicleOperatorCount _ => "selectedVehicleOperatorCount"
  | BindSolving _ => "solving"
  | BindPage _ => "page"
  end.

(** The framework writing a bound value into the component. *)
Definition setInput (b : Binding) (c : t) : t :=
  {| allowExperimentalFeatures :=
       match b with BindAllowExperimentalFeatures v => Some v
                  | _ => allowExperimentalFeatures c end;
     disabled := match b with BindDisabled v => Some v | _ => disabled c end;
     hasSolution := match b with BindHasSolution v => Some v | _ => hasSolution c end;
     isSolutionStale :=
       match b with BindIsSolutionStale v => Some v | _ => isSolutionStale c end;
     isSolutionIllegal :=
       match b with BindIsSolutionIllegal v => Some v | _ => isSolutionIllegal c end;
     selectedShipmentCount :=
       match b with BindSelectedShipmentCount v => Some v
                  | _ => selectedShipmentCount c end;
     selectedVehicleCount :=
       match b with BindSelectedVehicleCount v => Some v
                  | _ => selectedVehicleCount c end;
     selectedVehicleOperatorCount :=
       match b with BindSelectedVehicleOperatorCount v => Some v
                  | _ => selectedVehicleOperatorCount c end;
     solving := match b with BindSolving v => Some v | _ => solving c end;
     page := match b with BindPage v => Some v | _ => page c end;
     label := label c |}.

Definition setInputs (bindings : list Binding) (c : t) : t :=
  fold_left (fun acc b => setInput b acc) bindings c.

(** One round of change detection: the framework writes the new values,
    then calls [ngOnChanges] with its record of what changed. *)
Definition detectChanges (bindings : list Binding) (changes : SimpleChanges) (c : t) : t :=
  ngOnChanges changes (setInputs bindings c).

(** Rounds of change detection, one after the other. *)
Definition detectAll (rounds : list (list Binding * SimpleChanges)) (c : t) : t :=
  fold_left (fun acc round => detectChanges (fst round) (snd round) acc) rounds c.

(** The record of changes names every input that was written. *)
Definition reported (bindings : list Binding) (changes : SimpleChanges) : bool :=
  forallb (fun b => JS.defined (change (inputName b) changes)) bindings.

(** Whether a round writes one of the two inputs the label is made from. *)
Definition touchesLabel (bindings : list Binding) : bool :=
  existsb (fun b => String.eqb (inputName b) "hasSolution"
                    || String.eqb (inputName b) "solving") bindings.

(** The label that fits the inputs. *)
Definition labelFor (c : t) : string :=
  if JS.flag (solving c) then "Cancel"
  else if JS.flag (hasSolution c) then "Regenerate" else "Generate".

(** The component as constructed: nothing bound, no label. *)
Definition created : t :=
  {| allowExperimentalFeatures := None; disabled := None; hasSolution := None;
     isSolutionStale := None; isSolutionIllegal := None;
     selectedShipmentCount := None; selectedVehicleCount := None;
     selectedVehicleOperatorCount := None; solving := None; page := None;
     label := None |}.

Definition changed (name : string) : string * SimpleChange :=
  (name, {| previousValue := JNull; currentValue := JBool true; firstChange := false |}).

End BaseMainNavComponent.

(** * Properties *)

(** ** Array helpers *)

Lemma forEach_push_filter (A B : Type) (keep : A -> bool) (f : A -> B)
    (xs : list A) (acc : list B) :
  JS.forEach xs (fun x selected => if keep x then JS.push selected (f x) else selected) acc
  = (acc ++ map f (filter keep xs))%list.
Proof.
  unfold JS.forEach. revert acc.
  induction xs as [|x xs IH]; intros acc; simpl.
  - now rewrite app_nil_r.
  - rewrite IH. destruct (keep x); simpl; [|reflexivity].
    unfold JS.push. now rewrite <- app_assoc.
Qed.

Lemma forEach_push_all (A B : Type) (f : A -> B) (xs : list A) (acc : list B) :
  JS.forEach xs (fun x selected => JS.push selected (f x)) acc = (acc ++ map f xs)%list.
Proof.
  unfold JS.forEach. revert acc.
  induction xs as [|x xs IH]; intros acc; simpl.
  - now rewrite app_nil_r.
  - rewrite IH. unfold JS.push. now rewrite <- app_assoc.
Qed.

Lemma in_kept_ids (A : Type) (ignored : A -> bool) (id : A -> Z) (xs : list A) (i : Z) :
  In i (map id (filter (fun x => negb (ignored x)) xs)) <->
  exists x, In x xs /\ ignored x = false /\ id x = i.
Proof.
  rewrite in_map_iff. split.
  - intros [x [Hid Hin]]. apply filter_In in Hin. destruct Hin as [Hin Hk].
    exists x. repeat split; auto. now apply negb_true_iff.
  - intros [x [Hin [Hk Hid]]]. exists x. split; auto.
    apply filter_In. split; auto. now apply negb_true_iff.
Qed.

(** ** The dialog registry *)

Lemma countId_push (id : Modal) (ds : list DialogRef) (d : DialogRef) :
  countId id (JS.push ds d)
  = (countId id ds + (if modalEqb (dialogId d) id then 1 else 0))%nat.
Proof.
  unfold countId, JS.push. rewrite filter_app, length_app. simpl.
  destruct (modalEqb (dialogId d) id); reflexivity.
Qed.

Lemma countId_removeDialog (id : Modal) (ds : list DialogRef) :
  countId id (removeDialog id ds) = Nat.pred (countId id ds).
Proof.
  unfold countId. induction ds as [|d ds IH]; simpl; [reflexivity|].
  destruct (modalEqb (dialogId d) id) eqn:E; simpl; [reflexivity|].
  now rewrite E.
Qed.

Lemma countId_removeDialog_other (id id' : Modal) (ds : list DialogRef) :
  (forall m, modalEqb m id = true -> modalEqb m id' = false) ->
  countId id' (removeDialog id ds) = countId id' ds.
Proof.
  intros Hne. unfold countId. induction ds as [|d ds IH]; simpl; [reflexivity|].
  destruct (modalEqb (dialogId d) id) eqn:E; simpl.
  - now rewrite (Hne _ E).
  - destruct (modalEqb (dialogId d) id'); simpl; now rewrite IH.
Qed.

Lemma find_none_countId (id : Modal) (ds : list DialogRef) :
  find (fun d => modalEqb (dialogId d) id) ds = None <-> countId id ds = 0%nat.
Proof.
  unfold countId. induction ds as [|d ds IH]; simpl; [tauto|].
  destruct (modalEqb (dialogId d) id); simpl; [|exact IH].
  split; discriminate.
Qed.

Lemma upload_not_csv (m : Modal) : modalEqb m Upload = true -> modalEqb m CsvUpload = false.
Proof. destruct m; simpl; congruence. Qed.

Lemma csv_not_upload (m : Modal) : modalEqb m CsvUpload = true -> modalEqb m Upload = false.
Proof. destruct m; simpl; congruence. Qed.

Lemma modalEqb_eq (x y : Modal) : modalEqb x y = true <-> x = y.
Proof.
  destruct x, y; simpl; split; try congruence; try reflexivity.
  - intros H. apply String.eqb_eq in H. now subst.
  - intros H. injection H as ->. apply String.eqb_refl.
Qed.

Lemma csvDialogGuard_true (modal : option Modal) (existing : option DialogRef) :
  csvDialogGuard modal existing = true <-> modal = Some CsvUpload /\ existing = None.
Proof.
  unfold csvDialogGuard. destruct modal as [m|], existing as [d|]; simpl;
    rewrite ?andb_true_r, ?andb_false_r; split;
    try (intros [? ?]; discriminate); try discriminate.
  - intros H. apply modalEqb_eq in H. now subst.
  - intros [H _]. injection H as ->. reflexivity.
Qed.

Lemma uploadDialogGuard_true (modal : option Modal) (existing : option DialogRef) :
  uploadDialogGuard modal existing = true <-> modal = Some Upload /\ existing = None.
Proof.
  unfold uploadDialogGuard. destruct modal as [m|], existing as [d|]; simpl;
    rewrite ?andb_true_r, ?andb_false_r; split;
    try (intros [? ?]; discriminate); try discriminate.
  - intros H. apply modalEqb_eq in H. now subst.
  - intros [H _]. injection H as ->. reflexivity.
Qed.

(** What a trigger leaves behind: the world as it was, or the world with
    the effect's dialog opened and its [exhaustMap] busy. *)
Lemma openCsvDialogTrigger_cases (a : Action) (w : World) :
  openCsvDialogTrigger a w = (tt, w) \/
  (a = openCsvDialog /\ wModal w = Some CsvUpload /\
   fst (getDialogById CsvUpload w) = None /\ wCsvInner w = false /\
   openCsvDialogTrigger a w
   = (tt, {| wClock := wClock w; wTicks := wTicks w; wMessages := wMessages w;
             wModal := wModal w;
             wDialogs := JS.push (wDialogs w)
                           {| dialogId := CsvUpload;
                              dialogComponent := CsvUploadDialogComponent |};
             wCsvInner := true; wUploadInner := wUploadInner w |})).
Proof.
  unfold openCsvDialogTrigger.
  destruct (ofType [TOpenCsvDialog] a) eqn:Ht; [|now left].
  assert (a = openCsvDialog) as -> by (destruct a; simpl in Ht; congruence).
  unfold bind, selectModal, getDialogById; simpl.
  destruct (csvDialogGuard _ _) eqn:Hg; [|now left].
  apply csvDialogGuard_true in Hg. destruct Hg as [Hm Hf].
  destruct (wCsvInner w) eqn:Hb; [now left|].
  right. repeat split; assumption.
Qed.

Lemma openDialogTrigger_cases (a : Action) (w : World) :
  openDialogTrigger a w = (tt, w) \/
  ((a = openDialog \/ a = openUploadDialog) /\ wModal w = Some Upload /\
   fst (getDialogById Upload w) = None /\ wUploadInner w = false /\
   openDialogTrigger a w
   = (tt, {| wClock := wClock w; wTicks := wTicks w; wMessages := wMessages w;
             wModal := wModal w;
             wDialogs := JS.push (wDialogs w)
                           {| dialogId := Upload;
                              dialogComponent := UploadDialogComponent |};
             wCsvInner := wCsvInner w; wUploadInner := true |})).
Proof.
  unfold openDialogTrigger.
  destruct (ofType [TOpenDialog; TOpenUploadDialog] a) eqn:Ht; [|now left].
  assert (a = openDialog \/ a = openUploadDialog) as Ha
    by (destruct a; simpl in Ht; try discriminate; auto).
  unfold bind, selectModal, getDialogById; simpl.
  destruct (uploadDialogGuard _ _) eqn:Hg; [|now left].
  apply uploadDialogGuard_true in Hg. destruct Hg as [Hm Hf].
  destruct (wUploadInner w) eqn:Hb; [now left|].
  right. repeat split; assumption.
Qed.

Section EffectProperties.

Variable normalizeScenario : Json -> Z -> Normalized.

(** The payload of the first action [loadScenario$] answers with. *)
Lemma loadScenarioResult_payload (scenario : Json) (w : World) :
  let changeTime := wClock w (wTicks w) in
  let result := normalizeScenario scenario changeTime in
  exists p q,
    fst (loadScenarioResult normalizeScenario scenario w)
    = [loadScenario p; setRequestSettings q; setShipmentModel (shipmentModel result)] /\
    LoadScenario.shipments p = shipments result /\
    LoadScenario.vehicles p = vehicles result /\
    LoadScenario.vehicleOperators p = vehicleOperators result /\
    LoadScenario.changeTime p = changeTime /\
    LoadScenario.selectedShipments p
    = map shipmentId (filter (fun s => negb (JS.flag (shipmentIgnore s))) (shipments result)) /\
    LoadScenario.selectedVehicles p
    = map vehicleId (filter (fun v => negb (JS.flag (vehicleIgnore v))) (vehicles result)) /\
    LoadScenario.selectedVehicleOperators p
    = map vehicleOperatorId (vehicleOperators result).
Proof.
  intros changeTime result.
  unfold loadScenarioResult, bind, dateNow, ret; simpl.
  fold changeTime. fold result.
  eexists. eexists. split; [reflexivity|]. simpl.
  repeat split.
  - now rewrite forEach_push_filter.
  - now rewrite forEach_push_filter.
  - now rewrite forEach_push_all.
Qed.

(** The actions an upload is answered with when its dialog closes. *)
Lemma openDialogResult_actions (dialogResult : UploadDialogResult) (w : World) :
  fst (openDialogResult normalizeScenario (Some dialogResult) w)
  = closeDialog :: successActions normalizeScenario dialogResult (wClock w (wTicks w)).
Proof.
  destruct dialogResult as [content | scenario solution | uploadType content];
    unfold openDialogResult, bind, dateNow, ret; simpl.
  - destruct (hasInjectedRoutes _); reflexivity.
  - destruct (hasInjectedRoutes _); reflexivity.
  - reflexivity.
Qed.

(** C1: ignored entities are excluded from the selection sets.  The
    [loadScenario] action that [loadScenario$] dispatches for a scenario
    selects exactly the ids of the normalized shipments, and of the
    normalized vehicles, whose ignore flag is not set; the [applySolution]
    action of a scenario and solution pair requests exactly those ids
    too. *)
Theorem ignored_excluded_from_selection (scenario solution : Json) (w : World) :
  let result := normalizeScenario scenario (wClock w (wTicks w)) in
  (exists p rest,
     fst (loadScenarioOn normalizeScenario (uploadScenarioSuccess scenario) w) = loadScenario p :: rest /\
     LoadScenario.shipments p = shipments result /\
     LoadScenario.vehicles p = vehicles result /\
     (forall i, In i (LoadScenario.selectedShipments p) <->
                exists s, In s (shipments result) /\
                          JS.flag (shipmentIgnore s) = false /\ shipmentId s = i) /\
     (forall i, In i (LoadScenario.selectedVehicles p) <->
                exists v, In v (vehicles result) /\
                          JS.flag (vehicleIgnore v) = false /\ vehicleId v = i)) /\
  (exists elapsed requestedShipmentIds requestedVehicleIds,
     fst (openDialogResult normalizeScenario (Some (UploadScenarioSolutionPair scenario solution)) w)
     = [closeDialog; uploadScenarioSuccess (normalizedScenario result);
        applySolution elapsed requestedShipmentIds requestedVehicleIds] /\
     (forall i, In i requestedShipmentIds <->
                exists s, In s (shipments result) /\
                          JS.flag (shipmentIgnore s) = false /\ shipmentId s = i) /\
     (forall i, In i requestedVehicleIds <->
                exists v, In v (vehicles result) /\
                          JS.flag (vehicleIgnore v) = false /\ vehicleId v = i)).
Proof.
  intros result. split.
  - destruct (loadScenarioResult_payload scenario w)
      as [p [q [Hout [Hs [Hv [_ [_ [Hss [Hsv _]]]]]]]]].
    exists p. eexists. split; [exact Hout|].
    split; [exact Hs|]. split; [exact Hv|]. split; intros i.
    + rewrite Hss. apply in_kept_ids.
    + rewrite Hsv. apply in_kept_ids.
  - rewrite openDialogResult_actions. simpl. fold result.
    eexists. eexists. eexists. split; [reflexivity|].
    split; intros i; apply in_kept_ids.
Qed.

(** Neither dialog effect reacts to an action of another type. *)
Lemma openCsvDialogTrigger_other (a : Action) (w : World) :
  ofType [TOpenCsvDialog] a = false -> openCsvDialogTrigger a w = (tt, w).
Proof. intros H. unfold openCsvDialogTrigger. now rewrite H. Qed.

Lemma openDialogTrigger_other (a : Action) (w : World) :
  ofType [TOpenDialog; TOpenUploadDialog] a = false -> openDialogTrigger a w = (tt, w).
Proof. intros H. unfold openDialogTrigger. now rewrite H. Qed.

Lemma step_uploadScenarioSuccess (scenario : Json) (w : World) :
  step normalizeScenario (Dispatched (uploadScenarioSuccess scenario)) w
  = loadScenarioResult normalizeScenario scenario w.
Proof.
  unfold step, bind.
  rewrite openCsvDialogTrigger_other by reflexivity.
  rewrite openDialogTrigger_other by reflexivity.
  reflexivity.
Qed.

Lemma loadScenarioOn_types (a : Action) (w : World) :
  map actionType (fst (loadScenarioOn normalizeScenario a w)) = loadScenarioAnswer a.
Proof. destruct a; reflexivity. Qed.

Lemma loadScenarioEffect_types (actions : list Action) (w : World) :
  map actionType (fst (loadScenarioEffect normalizeScenario actions w))
  = flat_map loadScenarioAnswer actions.
Proof.
  revert w. induction actions as [|a rest IH]; intros w; simpl; [reflexivity|].
  unfold bind.
  destruct (loadScenarioOn normalizeScenario a w) as [out w'] eqn:Ha.
  destruct (loadScenarioEffect normalizeScenario rest w') as [outs w''] eqn:Hrest.
  simpl. rewrite map_app. f_equal.
  - change out with (fst (out, w')). rewrite <- Ha. apply loadScenarioOn_types.
  - change outs with (fst (outs, w'')). rewrite <- Hrest. apply IH.
Qed.

(** C3: for an [uploadScenarioSuccess] action [loadScenario$] dispatches
    exactly three actions, in this order: [loadScenario],
    [setRequestSettings], [setShipmentModel]; the two dialog effects add
    nothing, and over a run of actions the effect answers each
    [uploadScenarioSuccess] with these three and no other action with
    anything. *)
Theorem loadScenario_dispatches_three (scenario : Json) (actions : list Action) (w : World) :
  let result := normalizeScenario scenario (wClock w (wTicks w)) in
  (exists p q,
     fst (loadScenarioOn normalizeScenario (uploadScenarioSuccess scenario) w)
     = [loadScenario p; setRequestSettings q; setShipmentModel (shipmentModel result)]) /\
  fst (step normalizeScenario (Dispatched (uploadScenarioSuccess scenario)) w)
  = fst (loadScenarioOn normalizeScenario (uploadScenarioSuccess scenario) w) /\
  map actionType (fst (loadScenarioEffect normalizeScenario actions w))
  = flat_map loadScenarioAnswer actions.
Proof.
  intros result. split; [|split].
  - destruct (loadScenarioResult_payload scenario w) as [p [q [Hout _]]].
    exists p, q. exact Hout.
  - now rewrite step_uploadScenarioSuccess.
  - apply loadScenarioEffect_types.
Qed.

(** C4: for a truthy result of the CSV upload dialog [openCsvDialog$]
    dispatches exactly [closeCsvDialog], [setTimezone] with the result's
    timezone and [uploadScenarioSuccess] with the result's scenario, in
    this order; as a step of the system, that is what the closing of the
    dialog the effect opened dispatches. *)
Theorem csv_dialog_result_dispatches_three (dialogResult : CsvDialogResult) (w : World) :
  openCsvDialogResult (Some dialogResult)
  = [closeCsvDialog; setTimezone (csvTimezone dialogResult);
     uploadScenarioSuccess (csvScenario dialogResult)] /\
  fst (step normalizeScenario (CsvDialogClosed (Some dialogResult)) w)
  = if wCsvInner w
    then [closeCsvDialog; setTimezone (csvTimezone dialogResult);
          uploadScenarioSuccess (csvScenario dialogResult)]
    else [].
Proof.
  split; [reflexivity|].
  unfold step. destruct (wCsvInner w); reflexivity.
Qed.

(** C7: for a scenario and solution pair the solution of the dialog
    result is the solution of the [applySolution] action, whatever the
    normalization does; the elapsed time is 0 and the time of response is
    the request time, the one clock reading the scenario was normalized
    at. *)
Theorem solution_passed_through (scenario solution : Json) (w : World) :
  let requestTime := wClock w (wTicks w) in
  let result := normalizeScenario scenario requestTime in
  exists requestedShipmentIds requestedVehicleIds,
    fst (openDialogResult normalizeScenario
           (Some (UploadScenarioSolutionPair scenario solution)) w)
    = [closeDialog;
       uploadScenarioSuccess (normalizedScenario result);
       applySolution
         {| ElapsedSolution.scenario := normalizedScenario result;
            ElapsedSolution.solution := solution;
            ElapsedSolution.elapsedTime := 0;
            ElapsedSolution.requestTime := requestTime;
            ElapsedSolution.timeOfResponse := requestTime |}
         requestedShipmentIds requestedVehicleIds].
Proof.
  intros requestTime result. rewrite openDialogResult_actions. simpl.
  eexists. eexists. reflexivity.
Qed.

(** C8: the [loadScenario] action selects the id of every normalized
    vehicle operator, in order; no flag of an operator is looked at. *)
Theorem all_vehicle_operators_selected (scenario : Json) (w : World) :
  let result := normalizeScenario scenario (wClock w (wTicks w)) in
  exists p rest,
    fst (loadScenarioOn normalizeScenario (uploadScenarioSuccess scenario) w)
    = loadScenario p :: rest /\
    LoadScenario.vehicleOperators p = vehicleOperators result /\
    LoadScenario.selectedVehicleOperators p
    = map vehicleOperatorId (vehicleOperators result) /\
    Forall (fun o => In (vehicleOperatorId o) (LoadScenario.selectedVehicleOperators p))
           (vehicleOperators result).
Proof.
  intros result.
  destruct (loadScenarioResult_payload scenario w)
    as [p [q [Hout [_ [_ [Hops [_ [_ [_ Hsel]]]]]]]]].
  exists p. eexists. split; [exact Hout|]. split; [exact Hops|]. split; [exact Hsel|].
  apply Forall_forall. intros o Ho. rewrite Hsel. now apply in_map.
Qed.

(** C9: a CSV upload dialog closed with a falsy result dispatches
    nothing, not even [closeCsvDialog]; an upload dialog closed with a
    falsy result still dispatches exactly [closeDialog]. *)
Theorem cancelled_dialogs_asymmetric (w : World) :
  openCsvDialogResult None = [] /\
  fst (step normalizeScenario (CsvDialogClosed None) w) = [] /\
  openDialogResult normalizeScenario None w = ([closeDialog], w) /\
  fst (step normalizeScenario (UploadDialogClosed None) w)
  = if wUploadInner w then [closeDialog] else [].
Proof.
  repeat split.
  - unfold step. destruct (wCsvInner w); reflexivity.
  - unfold step. destruct (wUploadInner w); reflexivity.
Qed.

(** The world after an upload dialog result: only the clock has ticked
    and, with injected routes, one warning has been shown. *)
Lemma openDialogResult_world (dialogResult : UploadDialogResult) (w : World) :
  let w' := snd (openDialogResult normalizeScenario (Some dialogResult) w) in
  wModal w' = wModal w /\ wDialogs w' = wDialogs w /\
  wCsvInner w' = wCsvInner w /\ wUploadInner w' = wUploadInner w /\
  wClock w' = wClock w.
Proof.
  destruct dialogResult as [content | scenario solution | uploadType content];
    unfold openDialogResult, bind, dateNow, ret; simpl.
  - destruct (hasInjectedRoutes _); simpl; repeat split.
  - destruct (hasInjectedRoutes _); simpl; repeat split.
  - repeat split.
Qed.

Lemma openDialogResult_types (other : Json -> Z -> Normalized)
    (dialogResult : UploadDialogResult) (w w' : World) :
  map actionType (fst (openDialogResult other (Some dialogResult) w'))
  = map actionType (fst (openDialogResult normalizeScenario (Some dialogResult) w)).
Proof.
  unfold openDialogResult, bind, dateNow, ret.
  destruct dialogResult as [content | scenario solution | uploadType content]; simpl.
  - do 2 destruct (hasInjectedRoutes _); reflexivity.
  - do 2 destruct (hasInjectedRoutes _); reflexivity.
  - reflexivity.
Qed.

(** C2: injected routes produce a warning and nothing else.  For a
    scenario upload and for a scenario and solution pair whose normalized
    scenario has injected routes, [openDialog$] shows one warning and
    dispatches [closeDialog] and the success actions of the upload
    ([uploadScenarioSuccess], and [applySolution] for the pair): the
    actions every upload of that type gets, with or without injected
    routes.  Nothing is retried: no dialog is opened and no other action
    is dispatched. *)
Theorem injected_routes_warn_only
    (dialogResult : UploadDialogResult) (normalized : Json) (w : World) :
  uploadedNormalized normalizeScenario dialogResult (wClock w (wTicks w)) = Some normalized ->
  hasInjectedRoutes normalized = true ->
  let out := openDialogResult normalizeScenario (Some dialogResult) w in
  fst out = closeDialog
            :: successActions normalizeScenario dialogResult (wClock w (wTicks w)) /\
  wMessages (snd out)
  = (wMessages w ++ [{| severity := Warning;
                        text := injectedRoutesWarning dialogResult;
                        config := warningConfig |}])%list /\
  (forall other w',
     map actionType (fst (openDialogResult other (Some dialogResult) w'))
     = map actionType (fst out)) /\
  Forall (fun a => In (actionType a) [TCloseDialog; TUploadScenarioSuccess; TApplySolution])
         (fst out) /\
  wDialogs (snd out) = wDialogs w /\ wModal (snd out) = wModal w.
Proof.
  intros Hnorm Hroutes out.
  split; [apply openDialogResult_actions|].
  split.
  { subst out.
    destruct dialogResult as [content | scenario solution | uploadType content];
      simpl in Hnorm; try discriminate; injection Hnorm as Hnorm;
      unfold openDialogResult, bind, dateNow, ret; simpl;
      rewrite Hnorm, Hroutes; reflexivity. }
  split; [intros other w'; apply openDialogResult_types|].
  split.
  { subst out. rewrite openDialogResult_actions.
    destruct dialogResult; simpl;
      repeat (apply Forall_cons || apply Forall_nil); simpl; auto. }
  destruct (openDialogResult_world dialogResult w) as [Hm [Hd _]].
  split; assumption.
Qed.

(** *** The upload as a two-pass transform *)



(** *** Dialogs *)

Lemma loadScenarioOn_frame (a : Action) (w : World) :
  let w' := snd (loadScenarioOn normalizeScenario a w) in
  wDialogs w' = wDialogs w /\ wModal w' = wModal w /\
  wCsvInner w' = wCsvInner w /\ wUploadInner w' = wUploadInner w.
Proof. destruct a; simpl; repeat split. Qed.

Lemma openDialogResult_frame (dialogResult : option UploadDialogResult) (w : World) :
  let w' := snd (openDialogResult normalizeScenario dialogResult w) in
  wDialogs w' = wDialogs w /\ wModal w' = wModal w /\
  wCsvInner w' = wCsvInner w /\ wUploadInner w' = wUploadInner w.
Proof.
  destruct dialogResult as [dialogResult|]; [|simpl; repeat split].
  destruct (openDialogResult_world dialogResult w) as [Hm [Hd [Hc [Hu _]]]].
  repeat split; assumption.
Qed.

(** A step raises the number of open upload dialogs only by the trigger
    of [openDialog$], under its guard. *)
Lemma step_opens_upload (e : Event) (w : World) :
  (openCount Upload w < openCount Upload (snd (step normalizeScenario e w)))%nat ->
  (e = Dispatched openDialog \/ e = Dispatched openUploadDialog) /\
  wModal w = Some Upload /\ fst (getDialogById Upload w) = None.
Proof.
  unfold openCount. intros Hlt. destruct e as [a | modal | r | r].
  - unfold step, bind in Hlt.
    destruct (openCsvDialogTrigger_cases a w) as [Hc | [-> [_ [_ [_ Hc]]]]];
      rewrite Hc in Hlt.
    + destruct (openDialogTrigger_cases a w) as [Hu | [Ha [Hm [Hf [_ Hu]]]]];
        rewrite Hu in Hlt.
      * destruct (loadScenarioOn_frame a w) as [Hd _].
        destruct (loadScenarioOn normalizeScenario a w) as [out w'].
        simpl in *. rewrite Hd in Hlt. lia.
      * split; [destruct Ha; subst; auto|]. split; assumption.
    + rewrite openDialogTrigger_other in Hlt by reflexivity.
      simpl in Hlt. rewrite countId_push in Hlt. simpl in Hlt. lia.
  - simpl in Hlt. lia.
  - unfold step in Hlt. destruct (wCsvInner w); simpl in Hlt; [|lia].
    rewrite (countId_removeDialog_other CsvUpload Upload) in Hlt
      by apply csv_not_upload.
    lia.
  - unfold step in Hlt. destruct (wUploadInner w); simpl in Hlt; [|lia].
    unfold bind, dialogClosed, setUploadInner in Hlt. simpl in Hlt.
    match type of Hlt with
    | context [openDialogResult normalizeScenario r ?w0] =>
        destruct (openDialogResult_frame r w0) as [Hd _]; simpl in Hd;
        destruct (openDialogResult normalizeScenario r w0) as [out w']
    end.
    simpl in *. rewrite Hd, countId_removeDialog in Hlt. lia.
Qed.

Lemma step_opens_csv (e : Event) (w : World) :
  (openCount CsvUpload w < openCount CsvUpload (snd (step normalizeScenario e w)))%nat ->
  e = Dispatched openCsvDialog /\
  wModal w = Some CsvUpload /\ fst (getDialogById CsvUpload w) = None.
Proof.
  unfold openCount. intros Hlt. destruct e as [a | modal | r | r].
  - unfold step, bind in Hlt.
    destruct (openCsvDialogTrigger_cases a w) as [Hc | [-> [Hm [Hf [_ Hc]]]]];
      rewrite Hc in Hlt.
    + destruct (openDialogTrigger_cases a w) as [Hu | [Ha [_ [_ [_ Hu]]]]];
        rewrite Hu in Hlt.
      * destruct (loadScenarioOn_frame a w) as [Hd _].
        destruct (loadScenarioOn normalizeScenario a w) as [out w'].
        simpl in *. rewrite Hd in Hlt. lia.
      * destruct Ha; subst a; simpl in Hlt;
          rewrite countId_push in Hlt; simpl in Hlt; lia.
    + repeat split; assumption.
  - simpl in Hlt. lia.
  - unfold step in Hlt. destruct (wCsvInner w); simpl in Hlt; [|lia].
    rewrite countId_removeDialog in Hlt. lia.
  - unfold step in Hlt. destruct (wUploadInner w); simpl in Hlt; [|lia].
    unfold bind, dialogClosed, setUploadInner in Hlt. simpl in Hlt.
    match type of Hlt with
    | context [openDialogResult normalizeScenario r ?w0] =>
        destruct (openDialogResult_frame r w0) as [Hd _]; simpl in Hd;
        destruct (openDialogResult normalizeScenario r w0) as [out w']
    end.
    simpl in *.
    rewrite Hd, (countId_removeDialog_other Upload CsvUpload) in Hlt
      by apply upload_not_csv.
    lia.
Qed.

Lemma step_dialogsInStep (e : Event) (w : World) :
  dialogsInStep w -> dialogsInStep (snd (step normalizeScenario e w)).
Proof.
  unfold dialogsInStep, openCount. intros [Hup Hcsv].
  destruct e as [a | modal | r | r].
  - unfold step, bind.
    destruct (openCsvDialogTrigger_cases a w) as [Hc | [-> [_ [Hf [Hb Hc]]]]];
      rewrite Hc.
    + destruct (openDialogTrigger_cases a w) as [Hu | [Ha [_ [Hf [Hb Hu]]]]];
        rewrite Hu.
      * destruct (loadScenarioOn_frame a w) as [Hd [_ [Hci Hui]]].
        destruct (loadScenarioOn normalizeScenario a w) as [out w'].
        simpl in *. now rewrite Hd, Hci, Hui.
      * match goal with
        | |- context [loadScenarioOn normalizeScenario a ?w0] =>
            destruct (loadScenarioOn_frame a w0) as [Hd [_ [Hci Hui]]];
            destruct (loadScenarioOn normalizeScenario a w0) as [out w']
        end.
        simpl in *. rewrite Hd, Hci, Hui, !countId_push. simpl.
        rewrite Hb in Hup. rewrite Hup, Hcsv, Nat.add_0_r. split; reflexivity.
    + rewrite openDialogTrigger_other by reflexivity. simpl.
      rewrite !countId_push. simpl.
      rewrite Hb in Hcsv. rewrite Hup, Hcsv, Nat.add_0_r. split; reflexivity.
  - simpl. split; assumption.
  - unfold step. destruct (wCsvInner w) eqn:Hb; simpl; [|rewrite Hb; split; assumption].
    rewrite countId_removeDialog,
      (countId_removeDialog_other CsvUpload Upload) by apply csv_not_upload.
    rewrite Hup, Hcsv. split; reflexivity.
  - unfold step. destruct (wUploadInner w) eqn:Hb; simpl; [|rewrite Hb; split; assumption].
    unfold bind, dialogClosed, setUploadInner. simpl.
    match goal with
    | |- context [openDialogResult normalizeScenario r ?w0] =>
        destruct (openDialogResult_frame r w0) as [Hd [_ [Hci Hui]]];
        simpl in Hd, Hci, Hui;
        destruct (openDialogResult normalizeScenario r w0) as [out w']
    end.
    simpl in *. rewrite Hd, Hci, Hui.
    rewrite countId_removeDialog,
      (countId_removeDialog_other Upload CsvUpload) by apply upload_not_csv.
    rewrite Hup, Hcsv. split; reflexivity.
Qed.

Lemma run_dialogsInStep (events : list Event) (w : World) :
  dialogsInStep w -> dialogsInStep (snd (run normalizeScenario events w)).
Proof.
  revert w. induction events as [|e rest IH]; intros w Hw; simpl; [exact Hw|].
  pose proof (step_dialogsInStep e w Hw) as Hstep.
  destruct (step normalizeScenario e w) as [out w'].
  specialize (IH w' Hstep).
  destruct (run normalizeScenario rest w') as [outs w''].
  exact IH.
Qed.

Lemma dialogsInStep_at_most_one (w : World) :
  dialogsInStep w -> (openCount Upload w <= 1)%nat /\ (openCount CsvUpload w <= 1)%nat.
Proof.
  intros [Hup Hcsv]. rewrite Hup, Hcsv.
  destruct (wUploadInner w), (wCsvInner w); split; lia.
Qed.

(** C6: a dialog opens only on matching state and never twice at a time.
    In any world a step opens an upload dialog only for an [openDialog]
    (or the welcome page's [openUploadDialog]) action, with the selected
    modal [Modal.Upload] and no dialog of that id open; it opens a CSV
    upload dialog only for an [openCsvDialog] action, with the selected
    modal [Modal.CsvUpload] and no dialog of that id open.  After any
    sequence of events from the start of the application at most one
    dialog of each of the two ids is open. *)
Theorem dialog_opens_on_matching_state_once
    (w : World) (e : Event) (clock : nat -> Z) (events : list Event) :
  ((openCount Upload w < openCount Upload (snd (step normalizeScenario e w)))%nat ->
   (e = Dispatched openDialog \/ e = Dispatched openUploadDialog) /\
   wModal w = Some Upload /\ fst (getDialogById Upload w) = None) /\
  ((openCount CsvUpload w < openCount CsvUpload (snd (step normalizeScenario e w)))%nat ->
   e = Dispatched openCsvDialog /\
   wModal w = Some CsvUpload /\ fst (getDialogById CsvUpload w) = None) /\
  (openCount Upload (snd (run normalizeScenario events (initialWorld clock))) <= 1)%nat /\
  (openCount CsvUpload (snd (run normalizeScenario events (initialWorld clock))) <= 1)%nat.
Proof.
  split; [apply step_opens_upload|].
  split; [apply step_opens_csv|].
  apply dialogsInStep_at_most_one, run_dialogsInStep.
  split; reflexivity.
Qed.

End EffectProperties.

(** ** Runs on the sample data *)

Lemma injected_routes_warn_only_witness :
  hasInjectedRoutes Sample.injectedScenario = true /\
  (fst (openDialogResult Sample.normalize
          (Some (UploadScenario Sample.injectedScenario)) (initialWorld Sample.clock))
   = [closeDialog; uploadScenarioSuccess Sample.injectedScenario] /\
   wMessages (snd (openDialogResult Sample.normalize
                     (Some (UploadScenario Sample.injectedScenario))
                     (initialWorld Sample.clock)))
   = [{| severity := Warning; text := injectedRoutesWithoutSolution;
         config := warningConfig |}]) /\
  (map actionType
     (fst (openDialogResult Sample.normalize
             (Some (UploadScenarioSolutionPair Sample.injectedScenario Sample.solution))
             Sample.busyWorld))
   = [TCloseDialog; TUploadScenarioSuccess; TApplySolution] /\
   wMessages (snd (openDialogResult Sample.normalize
                     (Some (UploadScenarioSolutionPair Sample.injectedScenario
                              Sample.solution))
                     Sample.busyWorld))
   = (wMessages Sample.busyWorld
        ++ [{| severity := Warning; text := injectedRoutesWithSolution;
               config := warningConfig |}])%list).
Proof.
  split; [reflexivity|]. split.
  - destruct (injected_routes_warn_only Sample.normalize
                (UploadScenario Sample.injectedScenario) Sample.injectedScenario
                (initialWorld Sample.clock) eq_refl eq_refl)
      as [Hactions [Hshown _]].
    split; [exact Hactions | exact Hshown].
  - destruct (injected_routes_warn_only Sample.normalize
                (UploadScenarioSolutionPair Sample.injectedScenario Sample.solution)
                Sample.injectedScenario Sample.busyWorld eq_refl eq_refl)
      as [Hactions [Hshown _]].
    split; [rewrite Hactions; reflexivity | exact Hshown].
Defined.



Lemma dialog_opens_on_matching_state_once_witness :
  let w := snd (run Sample.normalize [ModalSelected (Some Upload)]
                  (initialWorld Sample.clock)) in
  (openCount Upload w
   < openCount Upload (snd (step Sample.normalize (Dispatched openDialog) w)))%nat /\
  wModal w = Some Upload /\ fst (getDialogById Upload w) = None.
Proof.
  intros w.
  assert (openCount Upload w
          < openCount Upload (snd (step Sample.normalize (Dispatched openDialog) w)))%nat
    as Hopens by (vm_compute; lia).
  split; [exact Hopens|].
  destruct (dialog_opens_on_matching_state_once Sample.normalize w
              (Dispatched openDialog) Sample.clock [])
    as [Hupload _].
  destruct (Hupload Hopens) as [_ [Hmodal Hnone]].
  split; [exact Hmodal | exact Hnone].
Defined.

Example sample_selection :
  exists p rest,
    fst (loadScenarioOn Sample.normalize (uploadScenarioSuccess Sample.plainScenario)
           (initialWorld Sample.clock))
    = loadScenario p :: rest /\
    LoadScenario.selectedShipments p = [1; 3] /\
    LoadScenario.selectedVehicles p = [2] /\
    LoadScenario.selectedVehicleOperators p = [7; 8] /\
    LoadScenario.changeTime p = 1000.
Proof. eexists. eexists. split; [reflexivity|]. repeat split. Qed.

Example sample_pair_upload :
  fst (openDialogResult Sample.normalize
         (Some (UploadScenarioSolutionPair Sample.plainScenario Sample.solution))
         (initialWorld Sample.clock))
  = [closeDialog;
     uploadScenarioSuccess Sample.plainScenario;
     applySolution
       {| ElapsedSolution.scenario := Sample.plainScenario;
          ElapsedSolution.solution := Sample.solution;
          ElapsedSolution.elapsedTime := 0;
          ElapsedSolution.requestTime := 1000;
          ElapsedSolution.timeOfResponse := 1000 |}
       [1; 3] [2]].
Proof. reflexivity. Qed.

(** A second trigger while the dialog is open opens nothing; after the
    dialog has closed the next trigger opens it again. *)
Example sample_dialog_session :
  map (fun events => openCount Upload (snd (run Sample.normalize events
                                              (initialWorld Sample.clock))))
      [ [Dispatched openDialog];
        [ModalSelected (Some Upload); Dispatched openDialog];
        [ModalSelected (Some Upload); Dispatched openDialog; Dispatched openUploadDialog];
        [ModalSelected (Some Upload); Dispatched openDialog; UploadDialogClosed None];
        [ModalSelected (Some Upload); Dispatched openDialog; UploadDialogClosed None;
         Dispatched openDialog] ]
  = [0; 1; 1; 0; 1]%nat.
Proof. reflexivity. Qed.

Example sample_cancelled_session :
  fst (run Sample.normalize
         [ModalSelected (Some CsvUpload); Dispatched openCsvDialog; CsvDialogClosed None;
          ModalSelected (Some Upload); Dispatched openDialog; UploadDialogClosed None]
         (initialWorld Sample.clock))
  = [closeDialog].
Proof. reflexivity. Qed.

(** * Further properties of the effects *)

(** ** Registry and shape helpers *)

Lemma removeDialog_push_absent (id : Modal) (ds : list DialogRef) (d : DialogRef) :
  find (fun x => modalEqb (dialogId x) id) ds = None ->
  modalEqb (dialogId d) id = true ->
  removeDialog id (JS.push ds d) = ds.
Proof.
  intros Hnone Hd. unfold JS.push.
  induction ds as [|x ds IH]; simpl in *.
  - now rewrite Hd.
  - destruct (modalEqb (dialogId x) id); [discriminate|].
    now rewrite IH.
Qed.

Lemma filter_removeDialog (keep : DialogRef -> bool) (id : Modal) (ds : list DialogRef) :
  (forall d, modalEqb (dialogId d) id = true -> keep d = false) ->
  filter keep (removeDialog id ds) = filter keep ds.
Proof.
  intros Hdrop. induction ds as [|d ds IH]; simpl; [reflexivity|].
  destruct (modalEqb (dialogId d) id) eqn:E.
  - now rewrite (Hdrop d E).
  - simpl. now rewrite IH.
Qed.

Lemma isOtherDialog_upload (d : DialogRef) :
  modalEqb (dialogId d) Upload = true -> isOtherDialog d = false.
Proof. unfold isOtherDialog. now intros ->. Qed.

Lemma isOtherDialog_csv (d : DialogRef) :
  modalEqb (dialogId d) CsvUpload = true -> isOtherDialog d = false.
Proof. unfold isOtherDialog. intros ->. apply andb_false_r. Qed.

Lemma loadScenarioAnswer_by_type (a : Action) :
  loadScenarioAnswer a
  = if actionTypeEqb (actionType a) TUploadScenarioSuccess
    then [TLoadScenario; TSetRequestSettings; TSetShipmentModel]
    else [].
Proof. destruct a; reflexivity. Qed.

Lemma flat_map_loadScenarioAnswer (actions : list Action) :
  flat_map loadScenarioAnswer actions
  = flat_map (fun t => if actionTypeEqb t TUploadScenarioSuccess
                       then [TLoadScenario; TSetRequestSettings; TSetShipmentModel]
                       else [])
             (map actionType actions).
Proof.
  induction actions as [|a rest IH]; simpl; [reflexivity|].
  now rewrite IH, loadScenarioAnswer_by_type.
Qed.

Lemma no_trigger_by_type (actions : list Action) :
  Forall (fun a => ofType [TOpenCsvDialog; TOpenDialog; TOpenUploadDialog] a = false) actions
  <-> Forall (fun t => existsb (actionTypeEqb t)
                         [TOpenCsvDialog; TOpenDialog; TOpenUploadDialog] = false)
             (map actionType actions).
Proof. symmetry. apply Forall_map. Qed.

Lemma shape_no_trigger (actions : list Action) :
  In (map actionType actions) stepOutputShapes ->
  Forall (fun a => ofType [TOpenCsvDialog; TOpenDialog; TOpenUploadDialog] a = false) actions.
Proof.
  intros H. apply no_trigger_by_type.
  unfold stepOutputShapes in H. simpl in H.
  repeat (destruct H as [H | H]; [rewrite <- H; repeat constructor|]).
  contradiction.
Qed.

Lemma shape_answer (actions : list Action) :
  In (map actionType actions) stepOutputShapes ->
  flat_map loadScenarioAnswer actions = [] \/
  flat_map loadScenarioAnswer actions
  = [TLoadScenario; TSetRequestSettings; TSetShipmentModel].
Proof.
  intros H. rewrite flat_map_loadScenarioAnswer.
  unfold stepOutputShapes in H. simpl in H.
  repeat (destruct H as [H | H]; [rewrite <- H; simpl; auto|]).
  contradiction.
Qed.

Section EffectFacts.

Variable normalizeScenario : Json -> Z -> Normalized.

(** *** What a step hands on *)

Lemma loadScenarioOn_keeps (a : Action) (w : World) :
  let w' := snd (loadScenarioOn normalizeScenario a w) in
  wDialogs w' = wDialogs w /\ wModal w' = wModal w /\
  wCsvInner w' = wCsvInner w /\ wUploadInner w' = wUploadInner w /\
  wMessages w' = wMessages w /\ wClock w' = wClock w.
Proof. destruct a; simpl; repeat split. Qed.

Lemma loadScenarioEffect_keeps (actions : list Action) (w : World) :
  let w' := snd (loadScenarioEffect normalizeScenario actions w) in
  wDialogs w' = wDialogs w /\ wModal w' = wModal w /\
  wCsvInner w' = wCsvInner w /\ wUploadInner w' = wUploadInner w /\
  wMessages w' = wMessages w /\ wClock w' = wClock w.
Proof.
  revert w. induction actions as [|a rest IH]; intros w; simpl; [repeat split|].
  unfold bind.
  pose proof (loadScenarioOn_keeps a w) as Ha.
  destruct (loadScenarioOn normalizeScenario a w) as [out w1].
  pose proof (IH w1) as Hrest.
  destruct (loadScenarioEffect normalizeScenario rest w1) as [outs w2].
  simpl in *.
  destruct Ha as [Ha1 [Ha2 [Ha3 [Ha4 [Ha5 Ha6]]]]].
  destruct Hrest as [Hr1 [Hr2 [Hr3 [Hr4 [Hr5 Hr6]]]]].
  repeat split; congruence.
Qed.

Lemma step_no_trigger (a : Action) (w : World) :
  ofType [TOpenCsvDialog; TOpenDialog; TOpenUploadDialog] a = false ->
  step normalizeScenario (Dispatched a) w = loadScenarioOn normalizeScenario a w.
Proof. destruct a; intros H; try discriminate; reflexivity. Qed.

Lemma run_dispatched (actions : list Action) (w : World) :
  Forall (fun a => ofType [TOpenCsvDialog; TOpenDialog; TOpenUploadDialog] a = false) actions ->
  run normalizeScenario (map Dispatched actions) w
  = loadScenarioEffect normalizeScenario actions w.
Proof.
  intros H. revert w. induction H as [|a rest Ha _ IH]; intros w; [reflexivity|].
  cbn [map run loadScenarioEffect]. unfold bind.
  rewrite (step_no_trigger a w Ha).
  destruct (loadScenarioOn normalizeScenario a w) as [out w1].
  rewrite IH.
  destruct (loadScenarioEffect normalizeScenario rest w1) as [outs w2].
  reflexivity.
Qed.

Lemma step_dispatched_out (a : Action) (w : World) :
  exists w',
    step normalizeScenario (Dispatched a) w = loadScenarioOn normalizeScenario a w' /\
    wMessages w' = wMessages w /\
    filter isOtherDialog (wDialogs w') = filter isOtherDialog (wDialogs w).
Proof.
  unfold step, bind.
  destruct (openCsvDialogTrigger_cases a w) as [Hc | [-> [_ [_ [_ Hc]]]]]; rewrite Hc.
  - destruct (openDialogTrigger_cases a w) as [Hu | [_ [_ [_ [_ Hu]]]]]; rewrite Hu.
    + exists w. repeat split.
    + eexists. split; [reflexivity|]. split; [reflexivity|]. simpl.
      unfold JS.push. rewrite filter_app. simpl. apply app_nil_r.
  - rewrite openDialogTrigger_other by reflexivity.
    eexists. split; [reflexivity|]. split; [reflexivity|]. simpl.
    unfold JS.push. rewrite filter_app. simpl. apply app_nil_r.
Qed.

Lemma step_shape (e : Event) (w : World) :
  In (map actionType (fst (step normalizeScenario e w))) stepOutputShapes.
Proof.
  destruct e as [a | modal | r | r].
  - destruct (step_dispatched_out a w) as [w' [-> _]].
    rewrite loadScenarioOn_types. destruct a; simpl; auto.
  - simpl; auto.
  - unfold step. destruct (wCsvInner w); [|simpl; auto].
    destruct r; simpl; auto.
  - unfold step. destruct (wUploadInner w); [|simpl; auto].
    unfold bind, dialogClosed, setUploadInner. simpl.
    destruct r as [r|]; [|simpl; auto].
    rewrite openDialogResult_actions. destruct r; simpl; auto 7.
Qed.

(** The effects dispatch results only: every step dispatches one of six
    sequences of action types, and no action dispatched over any sequence of
    events is one of the three triggers that open a dialog. *)
Theorem effects_never_dispatch_a_trigger (e : Event) (events : list Event) (w : World) :
  In (map actionType (fst (step normalizeScenario e w))) stepOutputShapes /\
  Forall (fun a => ofType [TOpenCsvDialog; TOpenDialog; TOpenUploadDialog] a = false)
         (fst (run normalizeScenario events w)).
Proof.
  split; [apply step_shape|].
  revert w. induction events as [|e' rest IH]; intros w; simpl; [constructor|].
  pose proof (step_shape e' w) as Hshape.
  destruct (step normalizeScenario e' w) as [out w1].
  specialize (IH w1).
  destruct (run normalizeScenario rest w1) as [outs w2].
  simpl in *. apply Forall_app. split; [apply shape_no_trigger, Hshape | exact IH].
Qed.

(** Dispatching back what a step dispatched comes to rest: the answer is
    nothing or the three actions of [loadScenario$], the answer to that is
    nothing, and on the way no dialog is opened or closed, the modal is left
    alone and no message is shown. *)
Theorem dispatch_cascade_ends (e : Event) (w : World) :
  let first := step normalizeScenario e w in
  let second := run normalizeScenario (map Dispatched (fst first)) (snd first) in
  let third := run normalizeScenario (map Dispatched (fst second)) (snd second) in
  (map actionType (fst second) = [] \/
   map actionType (fst second) = [TLoadScenario; TSetRequestSettings; TSetShipmentModel]) /\
  fst third = [] /\
  wDialogs (snd third) = wDialogs (snd first) /\
  wModal (snd third) = wModal (snd first) /\
  wMessages (snd third) = wMessages (snd first).
Proof.
  intros first second third.
  pose proof (step_shape e w) as Hshape. fold first in Hshape.
  assert (second = loadScenarioEffect normalizeScenario (fst first) (snd first)) as Hsecond
    by (apply run_dispatched, shape_no_trigger, Hshape).
  assert (map actionType (fst second) = flat_map loadScenarioAnswer (fst first)) as Htypes
    by (rewrite Hsecond; apply loadScenarioEffect_types).
  assert (map actionType (fst second) = [] \/
          map actionType (fst second)
          = [TLoadScenario; TSetRequestSettings; TSetShipmentModel]) as Hanswer
    by (rewrite Htypes; apply shape_answer, Hshape).
  assert (Forall (fun a => ofType [TOpenCsvDialog; TOpenDialog; TOpenUploadDialog] a = false)
                 (fst second)) as Hquiet.
  { apply no_trigger_by_type. destruct Hanswer as [-> | ->]; repeat constructor. }
  assert (third = loadScenarioEffect normalizeScenario (fst second) (snd second)) as Hthird
    by (apply run_dispatched, Hquiet).
  split; [exact Hanswer|]. split.
  { apply (map_eq_nil actionType). rewrite Hthird, loadScenarioEffect_types.
    rewrite flat_map_loadScenarioAnswer. destruct Hanswer as [-> | ->]; reflexivity. }
  pose proof (loadScenarioEffect_keeps (fst first) (snd first)) as H1.
  pose proof (loadScenarioEffect_keeps (fst second) (snd second)) as H2.
  rewrite <- Hsecond in H1. rewrite <- Hthird in H2. simpl in H1, H2.
  destruct H1 as [Hd1 [Hm1 [_ [_ [Hs1 _]]]]].
  destruct H2 as [Hd2 [Hm2 [_ [_ [Hs2 _]]]]].
  repeat split; congruence.
Qed.

(** *** Triggers *)

Lemma trigger_opens (c : DialogComponent) (a : Action) (w : World) :
  In a (effectTriggers c) ->
  wModal w = Some (effectModal c) ->
  fst (getDialogById (effectModal c) w) = None ->
  effectBusy c w = false ->
  step normalizeScenario (Dispatched a) w = ([], withDialogOpen c w).
Proof.
  intros Ha Hm Hf Hb. simpl in Hf.
  destruct c; simpl in Ha, Hm, Hf, Hb;
    repeat (destruct Ha as [<- | Ha]; [|]); try contradiction;
    unfold step, bind, openCsvDialogTrigger, openDialogTrigger, bind,
      selectModal, getDialogById; simpl;
    rewrite Hm, Hf; simpl; rewrite Hb; reflexivity.
Qed.

(** A trigger is dropped unless the state matches: with another modal
    selected, with a dialog of the effect's id already open, or with the
    effect still waiting for its dialog to close, the action dispatches
    nothing and changes nothing. *)
Theorem trigger_ignored_off_state (c : DialogComponent) (a : Action) (w : World) :
  In a (effectTriggers c) ->
  wModal w <> Some (effectModal c) \/
  fst (getDialogById (effectModal c) w) <> None \/
  effectBusy c w = true ->
  step normalizeScenario (Dispatched a) w = ([], w).
Proof.
  intros Ha Hoff.
  destruct c; simpl in Ha, Hoff.
  - destruct Ha as [<- | []].
    unfold step, bind.
    destruct (openCsvDialogTrigger_cases openCsvDialog w)
      as [Hc | [_ [Hm [Hf [Hb _]]]]].
    + rewrite Hc. reflexivity.
    + destruct Hoff as [H | [H | H]]; [now elim H | now elim H | congruence].
  - assert (openCsvDialogTrigger a w = (tt, w)) as Hc
      by (destruct Ha as [<- | [<- | []]]; reflexivity).
    unfold step, bind. rewrite Hc.
    destruct (openDialogTrigger_cases a w) as [Hu | [_ [Hm [Hf [Hb _]]]]].
    + rewrite Hu. destruct Ha as [<- | [<- | []]]; reflexivity.
    + destruct Hoff as [H | [H | H]]; [now elim H | now elim H | congruence].
Qed.

(** On matching state the dialog does open.  In any world reached from the
    start of the application, with the effect's modal selected and no
    dialog of its id open, a trigger opens exactly one dialog of the
    effect's component under that id and dispatches nothing: the effect is
    never found still waiting for a dialog that is no longer there. *)
Theorem trigger_opens_in_reachable_state
    (clock : nat -> Z) (events : list Event) (c : DialogComponent) (a : Action) :
  let w := snd (run normalizeScenario events (initialWorld clock)) in
  In a (effectTriggers c) ->
  wModal w = Some (effectModal c) ->
  fst (getDialogById (effectModal c) w) = None ->
  step normalizeScenario (Dispatched a) w = ([], withDialogOpen c w) /\
  wDialogs (withDialogOpen c w)
  = (wDialogs w ++ [{| dialogId := effectModal c; dialogComponent := c |}])%list /\
  openCount (effectModal c) (withDialogOpen c w) = 1%nat.
Proof.
  intros w Ha Hm Hf.
  assert (dialogsInStep w) as [Hup Hcsv]
    by (apply run_dialogsInStep; split; reflexivity).
  assert (openCount (effectModal c) w = 0%nat) as Hzero
    by (apply find_none_countId; exact Hf).
  assert (effectBusy c w = false) as Hb.
  { destruct c; simpl in *.
    - rewrite Hzero in Hcsv. destruct (wCsvInner w); [discriminate | reflexivity].
    - rewrite Hzero in Hup. destruct (wUploadInner w); [discriminate | reflexivity]. }
  split; [now apply trigger_opens|]. split; [reflexivity|].
  unfold openCount in *. simpl. rewrite countId_push, Hzero.
  destruct c; reflexivity.
Qed.

(** Opening and closing is transparent: a trigger on matching state
    followed by the closing of the dialog dispatches what the result
    handler dispatches and leaves the world as the handler alone would;
    the dialog is gone from the registry and the effect is free again.  A
    cancelled CSV dialog leaves no trace at all. *)
Theorem open_then_close_is_transparent (c : DialogComponent) (a : Action) (w : World) :
  In a (effectTriggers c) ->
  wModal w = Some (effectModal c) ->
  fst (getDialogById (effectModal c) w) = None ->
  effectBusy c w = false ->
  match c with
  | CsvUploadDialogComponent =>
      forall dialogResult,
        run normalizeScenario [Dispatched a; CsvDialogClosed dialogResult] w
        = (openCsvDialogResult dialogResult, w)
  | UploadDialogComponent =>
      forall dialogResult,
        run normalizeScenario [Dispatched a; UploadDialogClosed dialogResult] w
        = openDialogResult normalizeScenario dialogResult w
  end.
Proof.
  intros Ha Hm Hf Hb.
  pose proof (trigger_opens c a w Ha Hm Hf Hb) as Hopen.
  simpl in Hf.
  destruct c; intros dialogResult; cbn [run]; rewrite Hopen;
    unfold step, withDialogOpen, bind, dialogClosed, setCsvInner, setUploadInner;
    simpl; rewrite removeDialog_push_absent by (exact Hf || reflexivity);
    simpl in Hb; rewrite <- Hb; destruct w; simpl.
  - now rewrite app_nil_r.
  - destruct (openDialogResult normalizeScenario dialogResult _) as [out w'].
    now rewrite app_nil_r.
Qed.

(** *** Frames *)

Lemma step_other_dialogs (e : Event) (w : World) :
  filter isOtherDialog (wDialogs (snd (step normalizeScenario e w)))
  = filter isOtherDialog (wDialogs w).
Proof.
  destruct e as [a | modal | r | r].
  - destruct (step_dispatched_out a w) as [w' [-> [_ Hd]]].
    destruct (loadScenarioOn_keeps a w') as [Hk _]. now rewrite Hk.
  - reflexivity.
  - unfold step. destruct (wCsvInner w); [|reflexivity]. simpl.
    apply filter_removeDialog, isOtherDialog_csv.
  - unfold step. destruct (wUploadInner w); [|reflexivity].
    unfold bind, dialogClosed, setUploadInner. simpl.
    match goal with
    | |- context [openDialogResult normalizeScenario r ?w0] =>
        destruct (openDialogResult_frame normalizeScenario r w0) as [Hd _];
        simpl in Hd; rewrite Hd
    end.
    apply filter_removeDialog, isOtherDialog_upload.
Qed.

(** The effects keep to their own dialogs: over any sequence of events the
    dialogs open under other ids stay in the registry, in their order. *)
Theorem other_dialogs_untouched (events : list Event) (w : World) :
  filter isOtherDialog (wDialogs (snd (run normalizeScenario events w)))
  = filter isOtherDialog (wDialogs w).
Proof.
  revert w. induction events as [|e rest IH]; intros w; simpl; [reflexivity|].
  pose proof (step_other_dialogs e w) as Hstep.
  destruct (step normalizeScenario e w) as [out w1].
  specialize (IH w1).
  destruct (run normalizeScenario rest w1) as [outs w2].
  simpl in *. congruence.
Qed.

(** *** Messages *)

Lemma openDialogResult_shown (dialogResult : option UploadDialogResult) (w : World) :
  exists shown,
    wMessages (snd (openDialogResult normalizeScenario dialogResult w))
    = (wMessages w ++ shown)%list /\
    Forall isInjectedRoutesWarning shown.
Proof.
  destruct dialogResult as [[content | scenario solution | uploadType content]|];
    unfold openDialogResult, bind, dateNow, ret; simpl.
  - destruct (hasInjectedRoutes _); simpl.
    + eexists. split; [reflexivity|].
      constructor; [|constructor]. unfold isInjectedRoutesWarning; simpl; auto.
    + exists []. rewrite app_nil_r. split; [reflexivity | constructor].
  - destruct (hasInjectedRoutes _); simpl.
    + eexists. split; [reflexivity|].
      constructor; [|constructor]. unfold isInjectedRoutesWarning; simpl; auto.
    + exists []. rewrite app_nil_r. split; [reflexivity | constructor].
  - exists []. rewrite app_nil_r. split; [reflexivity | constructor].
  - exists []. rewrite app_nil_r. split; [reflexivity | constructor].
Qed.

Lemma step_shown (e : Event) (w : World) :
  exists shown,
    wMessages (snd (step normalizeScenario e w)) = (wMessages w ++ shown)%list /\
    Forall isInjectedRoutesWarning shown.
Proof.
  destruct e as [a | modal | r | r].
  - destruct (step_dispatched_out a w) as [w' [-> [Hm _]]].
    destruct (loadScenarioOn_keeps a w') as [_ [_ [_ [_ [Hk _]]]]].
    exists []. rewrite app_nil_r, Hk, Hm. split; [reflexivity | constructor].
  - exists []. rewrite app_nil_r. split; [reflexivity | constructor].
  - exists []. rewrite app_nil_r. unfold step.
    destruct (wCsvInner w); split; try reflexivity; constructor.
  - unfold step. destruct (wUploadInner w).
    + unfold bind, dialogClosed, setUploadInner. simpl.
      match goal with
      | |- context [openDialogResult normalizeScenario r ?w0] =>
          destruct (openDialogResult_shown r w0) as [shown [Hs Hall]]
      end.
      exists shown. split; [exact Hs | exact Hall].
    + exists []. rewrite app_nil_r. split; [reflexivity | constructor].
Qed.

(** The message service is only ever given the two warnings about injected
    routes, and nothing shown before is taken back: over any sequence of
    events the messages grow by warnings with one of the two texts, no
    duration and the bottom position. *)
Theorem only_injected_routes_warnings_shown (events : list Event) (w : World) :
  exists shown,
    wMessages (snd (run normalizeScenario events w)) = (wMessages w ++ shown)%list /\
    Forall isInjectedRoutesWarning shown.
Proof.
  revert w. induction events as [|e rest IH]; intros w; simpl.
  - exists []. rewrite app_nil_r. split; [reflexivity | constructor].
  - destruct (step_shown e w) as [shown1 [Hs1 Hall1]].
    destruct (step normalizeScenario e w) as [out w1].
    destruct (IH w1) as [shown2 [Hs2 Hall2]].
    destruct (run normalizeScenario rest w1) as [outs w2].
    simpl in *. exists (shown1 ++ shown2)%list.
    split; [now rewrite Hs2, Hs1, app_assoc | now apply Forall_app].
Qed.

(** A warning is shown exactly for injected routes: the closing of the
    upload dialog shows at most one message, and shows one if and only if
    the result is a scenario or a scenario and solution pair whose
    normalized scenario has injected routes.  A cancelled dialog, an upload
    of another type and a scenario without injected routes show nothing. *)
Theorem warning_iff_injected_routes (dialogResult : option UploadDialogResult) (w : World) :
  exists shown,
    wMessages (snd (openDialogResult normalizeScenario dialogResult w))
    = (wMessages w ++ shown)%list /\
    (List.length shown <= 1)%nat /\
    (shown <> [] <->
     exists r normalized,
       dialogResult = Some r /\
       uploadedNormalized normalizeScenario r (wClock w (wTicks w)) = Some normalized /\
       hasInjectedRoutes normalized = true).
Proof.
  destruct dialogResult as [[content | scenario solution | uploadType content]|];
    unfold openDialogResult, bind, dateNow, ret; simpl.
  - destruct (hasInjectedRoutes _) eqn:Hr; simpl.
    + eexists. split; [reflexivity|]. split; [simpl; lia|]. split; [|discriminate].
      intros _. eexists. eexists. split; [reflexivity|]. split; [reflexivity | exact Hr].
    + exists []. rewrite app_nil_r. split; [reflexivity|]. split; [simpl; lia|].
      split; [intros H; now elim H|].
      intros [r [normalized [Hsome [Hn Hroutes]]]].
      injection Hsome as <-. simpl in Hn. injection Hn as <-. congruence.
  - destruct (hasInjectedRoutes _) eqn:Hr; simpl.
    + eexists. split; [reflexivity|]. split; [simpl; lia|]. split; [|discriminate].
      intros _. eexists. eexists. split; [reflexivity|]. split; [reflexivity | exact Hr].
    + exists []. rewrite app_nil_r. split; [reflexivity|]. split; [simpl; lia|].
      split; [intros H; now elim H|].
      intros [r [normalized [Hsome [Hn Hroutes]]]].
      injection Hsome as <-. simpl in Hn. injection Hn as <-. congruence.
  - exists []. rewrite app_nil_r. split; [reflexivity|]. split; [simpl; lia|].
    split; [intros H; now elim H|].
    intros [r [normalized [Hsome [Hn _]]]].
    injection Hsome as <-. discriminate.
  - exists []. rewrite app_nil_r. split; [reflexivity|]. split; [simpl; lia|].
    split; [intros H; now elim H|].
    intros [r [normalized [Hsome _]]]. discriminate.
Qed.

(** An array of injected routes warns even when it is empty: the test is
    on the presence of [routes], not on its length. *)
Theorem empty_injected_routes_still_warn
    (dialogResult : UploadDialogResult) (w : World)
    (fields constraint : list (string * Json)) (routes : list Json) :
  uploadedNormalized normalizeScenario dialogResult (wClock w (wTicks w))
  = Some (JObj fields) ->
  JS.lookup "injectedSolutionConstraint" fields = Some (JObj constraint) ->
  JS.lookup "routes" constraint = Some (JArr routes) ->
  wMessages (snd (openDialogResult normalizeScenario (Some dialogResult) w))
  = (wMessages w ++ [{| severity := Warning;
                        text := injectedRoutesWarning dialogResult;
                        config := warningConfig |}])%list.
Proof.
  intros Hn Hc Hr.
  assert (hasInjectedRoutes (JObj fields) = true) as Hroutes
    by (unfold hasInjectedRoutes; simpl; rewrite Hc; simpl; rewrite Hr; reflexivity).
  destruct dialogResult as [content | scenario solution | uploadType content];
    simpl in Hn; try discriminate; injection Hn as Hn;
    unfold openDialogResult, bind, dateNow, ret; simpl;
    rewrite Hn, Hroutes; reflexivity.
Qed.

(** *** From the upload to the loaded scenario *)

(** An uploaded scenario is normalized twice.  [openDialog$] normalizes the
    upload at the first clock reading and dispatches the result;
    [loadScenario$] normalizes that result again, at the next reading, and
    it is this second normalization whose entities, change time and
    shipment model are loaded.  A cancelled dialog or an upload of another
    type loads nothing and does not read the clock. *)
Theorem upload_is_normalized_twice (dialogResult : UploadDialogResult) (w : World) :
  let t0 := wClock w (wTicks w) in
  let t1 := wClock w (S (wTicks w)) in
  uploadPipeline normalizeScenario None w = (([closeDialog], []), w) /\
  match uploadedNormalized normalizeScenario dialogResult t0 with
  | Some normalized =>
      let again := normalizeScenario normalized t1 in
      exists p q,
        snd (fst (uploadPipeline normalizeScenario (Some dialogResult) w))
        = [loadScenario p; setRequestSettings q; setShipmentModel (shipmentModel again)] /\
        LoadScenario.shipments p = shipments again /\
        LoadScenario.vehicles p = vehicles again /\
        LoadScenario.vehicleOperators p = vehicleOperators again /\
        LoadScenario.visitRequests p = visitRequests again /\
        LoadScenario.changeTime p = t1 /\
        wTicks (snd (uploadPipeline normalizeScenario (Some dialogResult) w))
        = S (S (wTicks w))
  | None =>
      uploadPipeline normalizeScenario (Some dialogResult) w = (([closeDialog], []), w)
  end.
Proof.
  intros t0 t1. split; [reflexivity|].
  destruct dialogResult as [content | scenario solution | uploadType content]; simpl.
  - unfold uploadPipeline, openDialogResult, bind, dateNow, ret; simpl.
    destruct (hasInjectedRoutes _); simpl;
      eexists; eexists; (split; [reflexivity|]); repeat split.
  - unfold uploadPipeline, openDialogResult, bind, dateNow, ret; simpl.
    destruct (hasInjectedRoutes _); simpl;
      eexists; eexists; (split; [reflexivity|]); repeat split.
  - reflexivity.
Qed.

(** When normalizing again keeps the shipments and vehicles, the selection
    that [loadScenario$] restores for a scenario and solution pair is the
    list of ids the [applySolution] action asks for, in the same order. *)
Theorem pair_selection_matches_request (scenario solution : Json) (w : World) :
  let first := normalizeScenario scenario (wClock w (wTicks w)) in
  let again := normalizeScenario (normalizedScenario first) (wClock w (S (wTicks w))) in
  shipments again = shipments first ->
  vehicles again = vehicles first ->
  exists elapsed requestedShipmentIds requestedVehicleIds p rest,
    fst (uploadPipeline normalizeScenario
           (Some (UploadScenarioSolutionPair scenario solution)) w)
    = ([closeDialog; uploadScenarioSuccess (normalizedScenario first);
        applySolution elapsed requestedShipmentIds requestedVehicleIds],
       loadScenario p :: rest) /\
    LoadScenario.selectedShipments p = requestedShipmentIds /\
    LoadScenario.selectedVehicles p = requestedVehicleIds.
Proof.
  intros first again Hs Hv.
  unfold uploadPipeline, openDialogResult, bind, dateNow, ret; simpl.
  fold first.
  destruct (hasInjectedRoutes _); simpl; fold again;
    do 5 eexists; (split; [reflexivity|]); simpl;
    rewrite !forEach_push_filter, Hs, Hv; split; reflexivity.
Qed.

(** Every entity is selected or ignored, none is lost: the selected
    shipments together with the ignored ones are as many as the shipments
    loaded, likewise for the vehicles, and there are as many selected
    vehicle operators as vehicle operators. *)
Theorem selected_and_ignored_partition (scenario : Json) (w : World) :
  exists p rest,
    fst (loadScenarioOn normalizeScenario (uploadScenarioSuccess scenario) w)
    = loadScenario p :: rest /\
    (List.length (LoadScenario.selectedShipments p)
     + List.length (filter (fun s => JS.flag (shipmentIgnore s)) (LoadScenario.shipments p))
     = List.length (LoadScenario.shipments p))%nat /\
    (List.length (LoadScenario.selectedVehicles p)
     + List.length (filter (fun v => JS.flag (vehicleIgnore v)) (LoadScenario.vehicles p))
     = List.length (LoadScenario.vehicles p))%nat /\
    List.length (LoadScenario.selectedVehicleOperators p)
    = List.length (LoadScenario.vehicleOperators p).
Proof.
  destruct (loadScenarioResult_payload normalizeScenario scenario w)
    as [p [q [Hout [Hs [Hv [Ho [_ [Hss [Hsv Hso]]]]]]]]].
  exists p. eexists. split; [exact Hout|].
  rewrite Hss, Hsv, Hso, Hs, Hv, Ho, !length_map.
  split; [|split; [|reflexivity]].
  - pose proof (filter_length (fun s => negb (JS.flag (shipmentIgnore s)))
                  (shipments (normalizeScenario scenario (wClock w (wTicks w))))) as H.
    rewrite (filter_ext (fun s => negb (negb (JS.flag (shipmentIgnore s))))
               (fun s => JS.flag (shipmentIgnore s))) in H
      by (intros s; apply negb_involutive).
    exact H.
  - pose proof (filter_length (fun v => negb (JS.flag (vehicleIgnore v)))
                  (vehicles (normalizeScenario scenario (wClock w (wTicks w))))) as H.
    rewrite (filter_ext (fun v => negb (negb (JS.flag (vehicleIgnore v))))
               (fun v => JS.flag (vehicleIgnore v))) in H
      by (intros v; apply negb_involutive).
    exact H.
Qed.

End EffectFacts.

(** * The main navigation component *)

Lemma setInputs_label (bindings : list BaseMainNavComponent.Binding)
    (c : BaseMainNavComponent.t) :
  BaseMainNavComponent.label (BaseMainNavComponent.setInputs bindings c)
  = BaseMainNavComponent.label c.
Proof.
  unfold BaseMainNavComponent.setInputs. revert c.
  induction bindings as [|b rest IH]; intros c; simpl; [reflexivity|].
  now rewrite IH.
Qed.

Lemma setInputs_untouched (bindings : list BaseMainNavComponent.Binding)
    (c : BaseMainNavComponent.t) :
  BaseMainNavComponent.touchesLabel bindings = false ->
  BaseMainNavComponent.solving (BaseMainNavComponent.setInputs bindings c)
  = BaseMainNavComponent.solving c /\
  BaseMainNavComponent.hasSolution (BaseMainNavComponent.setInputs bindings c)
  = BaseMainNavComponent.hasSolution c.
Proof.
  unfold BaseMainNavComponent.setInputs. revert c.
  induction bindings as [|b rest IH]; intros c H; simpl in *; [split; reflexivity|].
  apply orb_false_iff in H. destruct H as [Hb Hrest].
  destruct (IH (BaseMainNavComponent.setInput b c) Hrest) as [Hs Hh].
  rewrite Hs, Hh. destruct b; simpl in Hb; try discriminate; split; reflexivity.
Qed.

Lemma unreported_untouched (bindings : list BaseMainNavComponent.Binding)
    (changes : BaseMainNavComponent.SimpleChanges) :
  BaseMainNavComponent.reported bindings changes = true ->
  JS.defined (BaseMainNavComponent.change "hasSolution" changes)
  || JS.defined (BaseMainNavComponent.change "solving" changes) = false ->
  BaseMainNavComponent.touchesLabel bindings = false.
Proof.
  intros Hrep Hnone. apply orb_false_iff in Hnone. destruct Hnone as [Hh Hs].
  induction bindings as [|b rest IH]; simpl in *; [reflexivity|].
  apply andb_true_iff in Hrep. destruct Hrep as [Hb Hrest].
  rewrite (IH Hrest), orb_false_r.
  destruct b; simpl in *; try reflexivity; congruence.
Qed.

Lemma ngOnChanges_label (changes : BaseMainNavComponent.SimpleChanges)
    (c : BaseMainNavComponent.t) :
  BaseMainNavComponent.label (BaseMainNavComponent.ngOnChanges changes c)
  = if JS.defined (BaseMainNavComponent.change "hasSolution" changes)
       || JS.defined (BaseMainNavComponent.change "solving" changes)
    then Some (BaseMainNavComponent.labelFor c)
    else BaseMainNavComponent.label c.
Proof.
  unfold BaseMainNavComponent.ngOnChanges, BaseMainNavComponent.labelFor.
  destruct (_ || _); [|reflexivity].
  destruct (JS.flag (BaseMainNavComponent.solving c)); [reflexivity|].
  destruct (JS.flag (BaseMainNavComponent.hasSolution c)); reflexivity.
Qed.

Lemma ngOnChanges_inputs (changes : BaseMainNavComponent.SimpleChanges)
    (c : BaseMainNavComponent.t) :
  BaseMainNavComponent.setLabel "" (BaseMainNavComponent.ngOnChanges changes c)
  = BaseMainNavComponent.setLabel "" c.
Proof.
  unfold BaseMainNavComponent.ngOnChanges.
  destruct (_ || _); [|reflexivity].
  destruct (JS.flag (BaseMainNavComponent.solving c)); [reflexivity|].
  destruct (JS.flag (BaseMainNavComponent.hasSolution c)); reflexivity.
Qed.

Lemma labelFor_ngOnChanges (changes : BaseMainNavComponent.SimpleChanges)
    (c : BaseMainNavComponent.t) :
  BaseMainNavComponent.labelFor (BaseMainNavComponent.ngOnChanges changes c)
  = BaseMainNavComponent.labelFor c.
Proof.
  pose proof (ngOnChanges_inputs changes c) as H.
  unfold BaseMainNavComponent.labelFor.
  replace (BaseMainNavComponent.solving (BaseMainNavComponent.ngOnChanges changes c))
    with (BaseMainNavComponent.solving c)
    by (change (BaseMainNavComponent.solving c)
          with (BaseMainNavComponent.solving (BaseMainNavComponent.setLabel "" c));
        now rewrite <- H).
  replace (BaseMainNavComponent.hasSolution (BaseMainNavComponent.ngOnChanges changes c))
    with (BaseMainNavComponent.hasSolution c)
    by (change (BaseMainNavComponent.hasSolution c)
          with (BaseMainNavComponent.hasSolution (BaseMainNavComponent.setLabel "" c));
        now rewrite <- H).
  reflexivity.
Qed.

Lemma detectChanges_fits (bindings : list BaseMainNavComponent.Binding)
    (changes : BaseMainNavComponent.SimpleChanges) (c : BaseMainNavComponent.t) :
  BaseMainNavComponent.reported bindings changes = true ->
  BaseMainNavComponent.label c = Some (BaseMainNavComponent.labelFor c) \/
  BaseMainNavComponent.touchesLabel bindings = true ->
  BaseMainNavComponent.label (BaseMainNavComponent.detectChanges bindings changes c)
  = Some (BaseMainNavComponent.labelFor
            (BaseMainNavComponent.detectChanges bindings changes c)).
Proof.
  intros Hrep Hbefore. unfold BaseMainNavComponent.detectChanges.
  rewrite labelFor_ngOnChanges, ngOnChanges_label.
  destruct (_ || _) eqn:Hcond; [reflexivity|].
  pose proof (unreported_untouched bindings changes Hrep Hcond) as Hquiet.
  destruct Hbefore as [Hfit | Htouch]; [|congruence].
  destruct (setInputs_untouched bindings c Hquiet) as [Hs Hh].
  rewrite setInputs_label, Hfit.
  unfold BaseMainNavComponent.labelFor. now rewrite Hs, Hh.
Qed.

(** The label follows the inputs.  Over rounds of change detection in which
    every written input is among the reported changes, once the label fits
    the inputs, or once a round has written [hasSolution] or [solving], the
    label is Cancel while solving, Regenerate when not solving with a
    solution and Generate otherwise: solving takes precedence. *)
Theorem nav_label_follows_inputs
    (rounds : list (list BaseMainNavComponent.Binding * BaseMainNavComponent.SimpleChanges))
    (c : BaseMainNavComponent.t) :
  forallb (fun round => BaseMainNavComponent.reported (fst round) (snd round)) rounds = true ->
  BaseMainNavComponent.label c = Some (BaseMainNavComponent.labelFor c) \/
  existsb (fun round => BaseMainNavComponent.touchesLabel (fst round)) rounds = true ->
  BaseMainNavComponent.label (BaseMainNavComponent.detectAll rounds c)
  = Some (BaseMainNavComponent.labelFor (BaseMainNavComponent.detectAll rounds c)).
Proof.
  unfold BaseMainNavComponent.detectAll. revert c.
  induction rounds as [|[bindings changes] rest IH]; intros c Hrep Hbefore; simpl in *.
  - destruct Hbefore as [H | H]; [exact H | discriminate].
  - apply andb_true_iff in Hrep. destruct Hrep as [Hr Hrest].
    apply IH; [exact Hrest|].
    destruct Hbefore as [Hfit | Htouch].
    + left. apply detectChanges_fits; auto.
    + apply orb_true_iff in Htouch. destruct Htouch as [Hnow | Hlater].
      * left. apply detectChanges_fits; auto.
      * right. exact Hlater.
Qed.

(** [ngOnChanges] writes the label and nothing else: the inputs and the
    solution warning are as before, a second call with the same changes
    changes nothing more, and when the changes name neither [hasSolution]
    nor [solving] the label stays what it was, set or not. *)
Theorem nav_ngOnChanges_only_sets_label
    (changes : BaseMainNavComponent.SimpleChanges) (c : BaseMainNavComponent.t) :
  let c' := BaseMainNavComponent.ngOnChanges changes c in
  BaseMainNavComponent.setLabel "" c' = BaseMainNavComponent.setLabel "" c /\
  BaseMainNavComponent.hasSolutionWarning c' = BaseMainNavComponent.hasSolutionWarning c /\
  BaseMainNavComponent.ngOnChanges changes c' = c' /\
  BaseMainNavComponent.label c'
  = match BaseMainNavComponent.change "hasSolution" changes,
          BaseMainNavComponent.change "solving" changes with
    | None, None => BaseMainNavComponent.label c
    | _, _ => Some (BaseMainNavComponent.labelFor c)
    end.
Proof.
  intros c'. subst c'.
  split; [apply ngOnChanges_inputs|]. split; [|split].
  - unfold BaseMainNavComponent.ngOnChanges.
    destruct (_ || _); [|reflexivity].
    destruct (JS.flag (BaseMainNavComponent.solving c)); [reflexivity|].
    destruct (JS.flag (BaseMainNavComponent.hasSolution c)); reflexivity.
  - unfold BaseMainNavComponent.ngOnChanges.
    destruct (_ || _) eqn:Hcond; [|reflexivity].
    destruct (JS.flag (BaseMainNavComponent.solving c)) eqn:Hs; simpl; rewrite Hs.
    + reflexivity.
    + destruct (JS.flag (BaseMainNavComponent.hasSolution c)) eqn:Hh; simpl;
        rewrite ?Hs, ?Hh; reflexivity.
  - rewrite ngOnChanges_label.
    destruct (BaseMainNavComponent.change "hasSolution" changes),
             (BaseMainNavComponent.change "solving" changes); reflexivity.
Qed.

(** * Further runs on the sample data *)

Lemma trigger_ignored_off_state_witness :
  step Sample.normalize (Dispatched openDialog) (initialWorld Sample.clock)
  = ([], initialWorld Sample.clock) /\
  step Sample.normalize (Dispatched openUploadDialog) Sample.busyWorld
  = ([], Sample.busyWorld).
Proof.
  split.
  - apply (trigger_ignored_off_state Sample.normalize UploadDialogComponent).
    + simpl. left. reflexivity.
    + left. simpl. discriminate.
  - apply (trigger_ignored_off_state Sample.normalize UploadDialogComponent).
    + simpl. right. left. reflexivity.
    + right. right. reflexivity.
Defined.

Lemma trigger_opens_in_reachable_state_witness :
  let w := snd (run Sample.normalize [ModalSelected (Some CsvUpload)]
                  (initialWorld Sample.clock)) in
  step Sample.normalize (Dispatched openCsvDialog) w
  = ([], withDialogOpen CsvUploadDialogComponent w) /\
  wDialogs (withDialogOpen CsvUploadDialogComponent w)
  = [{| dialogId := CsvUpload; dialogComponent := CsvUploadDialogComponent |}].
Proof.
  intros w.
  destruct (trigger_opens_in_reachable_state Sample.normalize Sample.clock
              [ModalSelected (Some CsvUpload)] CsvUploadDialogComponent openCsvDialog)
    as [Hstep [Hdialogs _]].
  - simpl. left. reflexivity.
  - reflexivity.
  - reflexivity.
  - split; [exact Hstep | exact Hdialogs].
Defined.

Lemma open_then_close_is_transparent_witness :
  let w := snd (run Sample.normalize [ModalSelected (Some Upload)]
                  (initialWorld Sample.clock)) in
  run Sample.normalize
    [Dispatched openDialog; UploadDialogClosed (Some (UploadScenario Sample.plainScenario))] w
  = openDialogResult Sample.normalize (Some (UploadScenario Sample.plainScenario)) w.
Proof.
  intros w.
  apply (open_then_close_is_transparent Sample.normalize UploadDialogComponent openDialog w).
  - simpl. left. reflexivity.
  - reflexivity.
  - reflexivity.
  - reflexivity.
Defined.

Lemma empty_injected_routes_still_warn_witness :
  wMessages (snd (openDialogResult Sample.normalize
                    (Some (UploadScenario Sample.injectedScenario))
                    (initialWorld Sample.clock)))
  = [{| severity := Warning; text := injectedRoutesWithoutSolution;
        config := warningConfig |}].
Proof.
  apply (empty_injected_routes_still_warn Sample.normalize
           (UploadScenario Sample.injectedScenario) (initialWorld Sample.clock)
           [("model", JObj []);
            ("injectedSolutionConstraint", JObj [("routes", JArr [])])]
           [("routes", JArr [])] []).
  - reflexivity.
  - reflexivity.
  - reflexivity.
Defined.

Lemma pair_selection_matches_request_witness :
  exists elapsed p rest,
    fst (uploadPipeline Sample.normalize
           (Some (UploadScenarioSolutionPair Sample.plainScenario Sample.solution))
           (initialWorld Sample.clock))
    = ([closeDialog; uploadScenarioSuccess Sample.plainScenario;
        applySolution elapsed
          (LoadScenario.selectedShipments p) (LoadScenario.selectedVehicles p)],
       loadScenario p :: rest).
Proof.
  destruct (pair_selection_matches_request Sample.normalize Sample.plainScenario
              Sample.solution (initialWorld Sample.clock) eq_refl eq_refl)
    as [elapsed [ships [vehs [p [rest [Hout [Hs Hv]]]]]]].
  exists elapsed, p, rest. rewrite Hs, Hv. exact Hout.
Defined.

Lemma nav_label_follows_inputs_witness :
  BaseMainNavComponent.label
    (BaseMainNavComponent.detectAll
       [([BaseMainNavComponent.BindHasSolution true; BaseMainNavComponent.BindDisabled false],
         [BaseMainNavComponent.changed "hasSolution"; BaseMainNavComponent.changed "disabled"]);
        ([BaseMainNavComponent.BindSolving true],
         [BaseMainNavComponent.changed "solving"]);
        ([BaseMainNavComponent.BindSelectedShipmentCount 4],
         [BaseMainNavComponent.changed "selectedShipmentCount"])]
       BaseMainNavComponent.created)
  = Some "Cancel".
Proof.
  rewrite (nav_label_follows_inputs
             [([BaseMainNavComponent.BindHasSolution true;
                BaseMainNavComponent.BindDisabled false],
               [BaseMainNavComponent.changed "hasSolution";
                BaseMainNavComponent.changed "disabled"]);
              ([BaseMainNavComponent.BindSolving true],
               [BaseMainNavComponent.changed "solving"]);
              ([BaseMainNavComponent.BindSelectedShipmentCount 4],
               [BaseMainNavComponent.changed "selectedShipmentCount"])]
             BaseMainNavComponent.created).
  - reflexivity.
  - reflexivity.
  - right. reflexivity.
Defined.
